(** * The response cache of the fantasy-football proxy server

    A shallow embedding of the Express server (the file that builds [app]):
    the module-level [cache] map, [cacheMiddleware], [createClient], the six
    cached routes, the health route and the cache-clear route, followed by
    the properties of the cache that the specification states.

    Conventions.
    - A JavaScript value that is a string or [undefined] is an
      [option string]; [None] is [undefined].
    - A number that may be [NaN] is an [option Z]; [None] is [NaN].
    - The [Map] called [cache] is a [gmap string CacheEntry].
    - Handlers run in a state monad over [World] with one kind of failure,
      a thrown error that carries its [message]. *)

From Stdlib Require Import ZArith.
From stdpp Require Import base option list gmap strings.

Local Open Scope string_scope.
Local Open Scope Z_scope.

(** ** Values *)

(** A JSON payload, as handed to [res.json]. *)
#[local] Unset Elimination Schemes.
Inductive JSON : Type :=
| JNull
| JBool (b : bool)
| JNumber (n : Z)
| JString (s : string)
| JArray (items : list JSON)
| JObject (fields : list (string * JSON)).
#[local] Set Elimination Schemes.

(** Truthiness, as [!v] and [a && b] test it: of the values a query
    parameter or a header can take here, only a non-empty string is truthy. *)
Definition truthy (v : option string) : bool :=
  match v with
  | Some s => negb (String.eqb s "")
  | None => false
  end.

(** [String(v)], the conversion [parseInt] applies to its argument. *)
Definition ToString (v : option string) : string :=
  match v with
  | Some s => s
  | None => "undefined"
  end.

(** ** The cache store: [const cache = new Map()] *)

Record CacheEntry := mkEntry { data : JSON; timestamp : Z }.

Abbreviation Cache := (gmap string CacheEntry).

(** [const CACHE_DURATION = 10 * 60 * 1000] *)
Definition CACHE_DURATION : Z := 10 * 60 * 1000.

(** ** Requests and responses *)

(** The fields of [req] that the server reads.  [params], [query] and
    [headers] are the objects the handlers destructure, looked up by the
    property names the handlers use; a property that is present holds a
    string. *)
Record Request := mkRequest {
  originalUrl : string;
  params : gmap string string;
  query : gmap string string;
  headers : gmap string string
}.

(** The response object of one exchange.  [capture] is [Some key] once the
    middleware has run lines 26-30: [res.sendResponse] then holds Express's
    own [json] and [res.json] is the closure that stores under [key].
    [sent] lists what Express's own [json] wrote to the socket, each body
    with the status code in force when it was written. *)
Record Response := mkResponse {
  statusCode : Z;
  capture : option string;
  sent : list (Z * JSON)
}.

(** A response object as Express creates it for a new exchange. *)
Definition new_response : Response :=
  {| statusCode := 200; capture := None; sent := [] |}.

(** ** The upstream client *)

(** The object [createClient] passes to [new Client]: [espnS2] and [SWID]
    are [None] when the property is not set. *)
Record ClientConfig := mkConfig {
  cfg_leagueId : option Z;
  cfg_espnS2 : option string;
  cfg_SWID : option string
}.

(** The client methods the routes call, with their argument objects. *)
Inductive Fetch : Type :=
| getLeagueInfo (seasonId : option Z)
| getTeamsAtWeek (seasonId scoringPeriodId : option Z)
| getBoxscoreForWeek (seasonId matchupPeriodId scoringPeriodId : option Z)
| getFreeAgents (seasonId scoringPeriodId : option Z)
| getDraftInfo (seasonId : option Z)
| getNFLGamesForPeriod (startDate endDate : option string).

Record Call := mkCall { client : ClientConfig; fetch : Fetch }.

(** What the outside world does during one [await] of a client method:
    the promise settles ([inr] a payload, [inl] the [message] of the error
    it rejects with), [elapsed] milliseconds pass, and the exchanges that
    ran in the meantime have changed the shared store by [meanwhile]. *)
Record Upstream := mkUpstream {
  reply : Call -> string + JSON;
  elapsed : Z;
  meanwhile : Cache -> Cache
}.

(** ** The state monad of an exchange *)

(** [cache] is the module-level store; [now] is what [Date.now()] returns,
    and moves only across an [await]; [res] is the response object of the
    exchange under way; [calls] records the client calls issued and
    [console] the lines written by [console.error]. *)
Record World := mkWorld {
  cache : Cache;
  now : Z;
  res : Response;
  calls : list Call;
  console : list (string * string)
}.

Inductive Outcome (A : Type) : Type :=
| Returned (a : A)
| Thrown (message : string).
Arguments Returned {A} a.
Arguments Thrown {A} message.

Definition M (A : Type) : Type := World -> Outcome A * World.

#[global] Instance M_ret : MRet M := fun A a w => (Returned a, w).

#[global] Instance M_bind : MBind M := fun A B f m w =>
  match m w with
  | (Returned a, w') => f a w'
  | (Thrown e, w') => (Thrown e, w')
  end.

(** [try { body } catch (error) { handler }] *)
Definition try_catch {A} (body : M A) (handler : string -> M A) : M A :=
  fun w =>
    match body w with
    | (Returned a, w') => (Returned a, w')
    | (Thrown e, w') => handler e w'
    end.

Definition set_cache (c : Cache) (w : World) : World :=
  {| cache := c; now := now w; res := res w; calls := calls w;
     console := console w |}.

Definition set_res (r : Response) (w : World) : World :=
  {| cache := cache w; now := now w; res := r; calls := calls w;
     console := console w |}.

(** [cache.get(key)] *)
Definition cache_get (key : string) : M (option CacheEntry) :=
  fun w => (Returned (cache w !! key), w).

(** [cache.set(key, entry)] *)
Definition cache_set (key : string) (entry : CacheEntry) : M unit :=
  fun w => (Returned tt, set_cache (<[key := entry]> (cache w)) w).

(** [cache.clear()] *)
Definition cache_clear : M unit :=
  fun w => (Returned tt, set_cache ∅ w).

(** [Date.now()] *)
Definition Date_now : M Z := fun w => (Returned (now w), w).

(** [res.status(code)] *)
Definition res_status (code : Z) : M unit :=
  fun w =>
    (Returned tt,
     set_res {| statusCode := code; capture := capture (res w);
                sent := sent (res w) |} w).

(** Express's own [res.json]: the body goes out with the current status. *)
Definition express_json (body : JSON) : M unit :=
  fun w =>
    (Returned tt,
     set_res {| statusCode := statusCode (res w); capture := capture (res w);
                sent := sent (res w) ++ [(statusCode (res w), body)] |} w).

(** A call of [res.json(body)]: Express's own method, or, once the middleware
    has replaced it, the closure of lines 27-30. *)
Definition res_json (body : JSON) : M unit :=
  fun w =>
    match capture (res w) with
    | None => express_json body w
    | Some key =>
        (t ← Date_now;
         cache_set key {| data := body; timestamp := t |};;
         express_json body) w
    end.

(** [console.error(label, error)] *)
Definition console_error (label message : string) : M unit :=
  fun w =>
    (Returned tt,
     {| cache := cache w; now := now w; res := res w; calls := calls w;
        console := console w ++ [(label, message)] |}).

(** [await client.method(args)] *)
Definition await (up : Upstream) (c : Call) : M JSON :=
  fun w =>
    let w' := {| cache := meanwhile up (cache w); now := now w + elapsed up;
                 res := res w; calls := calls w ++ [c];
                 console := console w |} in
    match reply up c with
    | inr payload => (Returned payload, w')
    | inl message => (Thrown message, w')
    end.

(** ** The cache middleware *)

(** Lines 26-30: keep Express's [json] as [res.sendResponse] and install the
    capturing closure for [key]. *)
Definition install_capture (key : string) : M unit :=
  fun w =>
    (Returned tt,
     set_res {| statusCode := statusCode (res w); capture := Some key;
                sent := sent (res w) |} w).

Definition cacheMiddleware (duration : Z) (req : Request) (next : M unit)
  : M unit :=
  let key := originalUrl req in
  cached ← cache_get key;
  match cached with
  | Some entry =>
      t ← Date_now;
      if bool_decide (t - timestamp entry < duration)
      then res_json (data entry)
      else install_capture key;; next
  | None => install_capture key;; next
  end.

(** ** The routes *)

Section Server.

(** Two built-ins of the language are left abstract: [parseInt] on strings
    ([None] for [NaN]) and [Date.prototype.toISOString] on a time in
    milliseconds. *)
Variable parseInt : string -> option Z.
Variable toISOString : Z -> string.

(** [createClient(leagueId, espnS2 = null, SWID = null)]; the result is the
    configuration the [Client] is built from. *)
Definition createClient (leagueId espnS2 SWID : option string)
  : ClientConfig :=
  let config := {| cfg_leagueId := parseInt (ToString leagueId);
                   cfg_espnS2 := None; cfg_SWID := None |} in
  if truthy espnS2 && truthy SWID
  then {| cfg_leagueId := cfg_leagueId config;
          cfg_espnS2 := espnS2; cfg_SWID := SWID |}
  else config.

(** [GET /api/league/:leagueId/info] *)
Definition league_info (up : Upstream) (req : Request) : M unit :=
  try_catch
    (let leagueId := params req !! "leagueId" in
     let seasonId := query req !! "seasonId" in
     let espnS2 := headers req !! "espnS2" in
     let SWID := headers req !! "SWID" in
     if negb (truthy seasonId)
     then res_status 400;;
          res_json (JObject
            [("error", JString "seasonId query parameter is required")])
     else
       let client := createClient leagueId espnS2 SWID in
       leagueInfo ← await up
         {| client := client;
            fetch := getLeagueInfo (parseInt (ToString seasonId)) |};
       res_json leagueInfo)
    (fun error =>
       console_error "Error fetching league info:" error;;
       res_status 500;;
       res_json (JObject
         [("error", JString "Failed to fetch league information");
          ("message", JString error)])).

(** [GET /api/league/:leagueId/teams] *)
Definition league_teams (up : Upstream) (req : Request) : M unit :=
  try_catch
    (let leagueId := params req !! "leagueId" in
     let seasonId := query req !! "seasonId" in
     let scoringPeriodId := query req !! "scoringPeriodId" in
     let espnS2 := headers req !! "espnS2" in
     let SWID := headers req !! "SWID" in
     if negb (truthy seasonId) || negb (truthy scoringPeriodId)
     then res_status 400;;
          res_json (JObject
            [("error", JString
               "seasonId and scoringPeriodId query parameters are required")])
     else
       let client := createClient leagueId espnS2 SWID in
       teams ← await up
         {| client := client;
            fetch := getTeamsAtWeek (parseInt (ToString seasonId))
                       (parseInt (ToString scoringPeriodId)) |};
       res_json teams)
    (fun error =>
       console_error "Error fetching teams:" error;;
       res_status 500;;
       res_json (JObject
         [("error", JString "Failed to fetch teams");
          ("message", JString error)])).

(** [GET /api/league/:leagueId/boxscores] *)
Definition league_boxscores (up : Upstream) (req : Request) : M unit :=
  try_catch
    (let leagueId := params req !! "leagueId" in
     let seasonId := query req !! "seasonId" in
     let matchupPeriodId := query req !! "matchupPeriodId" in
     let scoringPeriodId := query req !! "scoringPeriodId" in
     let espnS2 := headers req !! "espnS2" in
     let SWID := headers req !! "SWID" in
     if negb (truthy seasonId) || negb (truthy matchupPeriodId)
        || negb (truthy scoringPeriodId)
     then res_status 400;;
          res_json (JObject
            [("error", JString
               "seasonId, matchupPeriodId, and scoringPeriodId query parameters are required")])
     else
       let client := createClient leagueId espnS2 SWID in
       boxscores ← await up
         {| client := client;
            fetch := getBoxscoreForWeek (parseInt (ToString seasonId))
                       (parseInt (ToString matchupPeriodId))
                       (parseInt (ToString scoringPeriodId)) |};
       res_json boxscores)
    (fun error =>
       console_error "Error fetching boxscores:" error;;
       res_status 500;;
       res_json (JObject
         [("error", JString "Failed to fetch boxscores");
          ("message", JString error)])).

(** [GET /api/league/:leagueId/free-agents] *)
Definition league_free_agents (up : Upstream) (req : Request) : M unit :=
  try_catch
    (let leagueId := params req !! "leagueId" in
     let seasonId := query req !! "seasonId" in
     let scoringPeriodId := query req !! "scoringPeriodId" in
     let espnS2 := headers req !! "espnS2" in
     let SWID := headers req !! "SWID" in
     if negb (truthy seasonId) || negb (truthy scoringPeriodId)
     then res_status 400;;
          res_json (JObject
            [("error", JString
               "seasonId and scoringPeriodId query parameters are required")])
     else
       let client := createClient leagueId espnS2 SWID in
       freeAgents ← await up
         {| client := client;
            fetch := getFreeAgents (parseInt (ToString seasonId))
                       (parseInt (ToString scoringPeriodId)) |};
       res_json freeAgents)
    (fun error =>
       console_error "Error fetching free agents:" error;;
       res_status 500;;
       res_json (JObject
         [("error", JString "Failed to fetch free agents");
          ("message", JString error)])).

(** [GET /api/league/:leagueId/draft] *)
Definition league_draft (up : Upstream) (req : Request) : M unit :=
  try_catch
    (let leagueId := params req !! "leagueId" in
     let seasonId := query req !! "seasonId" in
     let espnS2 := headers req !! "espnS2" in
     let SWID := headers req !! "SWID" in
     if negb (truthy seasonId)
     then res_status 400;;
          res_json (JObject
            [("error", JString "seasonId query parameter is required")])
     else
       let client := createClient leagueId espnS2 SWID in
       draftInfo ← await up
         {| client := client;
            fetch := getDraftInfo (parseInt (ToString seasonId)) |};
       res_json draftInfo)
    (fun error =>
       console_error "Error fetching draft info:" error;;
       res_status 500;;
       res_json (JObject
         [("error", JString "Failed to fetch draft information");
          ("message", JString error)])).

(** [GET /api/nfl-games]: the client is [new Client({ leagueId: 0 })]. *)
Definition nfl_games (up : Upstream) (req : Request) : M unit :=
  try_catch
    (let startDate := query req !! "startDate" in
     let endDate := query req !! "endDate" in
     if negb (truthy startDate) || negb (truthy endDate)
     then res_status 400;;
          res_json (JObject
            [("error", JString
               "startDate and endDate query parameters are required (format: YYYYMMDD)")])
     else
       let client := {| cfg_leagueId := Some 0; cfg_espnS2 := None;
                        cfg_SWID := None |} in
       games ← await up
         {| client := client;
            fetch := getNFLGamesForPeriod startDate endDate |};
       res_json games)
    (fun error =>
       console_error "Error fetching NFL games:" error;;
       res_status 500;;
       res_json (JObject
         [("error", JString "Failed to fetch NFL games");
          ("message", JString error)])).

(** [GET /api/health] *)
Definition health : M unit :=
  t ← Date_now;
  res_json (JObject [("status", JString "ok");
                     ("timestamp", JString (toISOString t))]).

(** [POST /api/cache/clear] *)
Definition clear_cache : M unit :=
  cache_clear;;
  res_json (JObject [("message", JString "Cache cleared successfully")]).

(** The six routes registered with [cacheMiddleware(CACHE_DURATION)]. *)
Inductive Route : Type :=
| Info | Teams | Boxscores | FreeAgents | Draft | NflGames.

Definition handler (r : Route) : Upstream -> Request -> M unit :=
  match r with
  | Info => league_info
  | Teams => league_teams
  | Boxscores => league_boxscores
  | FreeAgents => league_free_agents
  | Draft => league_draft
  | NflGames => nfl_games
  end.

(** [app.get(path, cacheMiddleware(CACHE_DURATION), handler)] *)
Definition cached_route (r : Route) (up : Upstream) (req : Request)
  : M unit :=
  cacheMiddleware CACHE_DURATION req (handler r up req).

(** An exchange starts at time [t] with a response object of its own; the
    store, the record of upstream calls and the console are the server's. *)
Definition start (t : Z) (w : World) : World :=
  {| cache := cache w; now := t; res := new_response; calls := calls w;
     console := console w |}.

(** *** The routes side by side

    The six handlers differ only in the guard on the query, the message of
    the 400 response, the client call, and the two labels of the [catch]
    block.  The tables below read these off the handlers; [handler_shape]
    checks them against the handlers themselves. *)

(** The condition of the handler's first [if]. *)
Definition missing_param (r : Route) (req : Request) : bool :=
  match r with
  | Info | Draft => negb (truthy (query req !! "seasonId"))
  | Teams | FreeAgents =>
      negb (truthy (query req !! "seasonId"))
      || negb (truthy (query req !! "scoringPeriodId"))
  | Boxscores =>
      negb (truthy (query req !! "seasonId"))
      || negb (truthy (query req !! "matchupPeriodId"))
      || negb (truthy (query req !! "scoringPeriodId"))
  | NflGames =>
      negb (truthy (query req !! "startDate"))
      || negb (truthy (query req !! "endDate"))
  end.

(** The [error] text of the 400 response. *)
Definition required_message (r : Route) : string :=
  match r with
  | Info | Draft => "seasonId query parameter is required"
  | Teams | FreeAgents =>
      "seasonId and scoringPeriodId query parameters are required"
  | Boxscores =>
      "seasonId, matchupPeriodId, and scoringPeriodId query parameters are required"
  | NflGames =>
      "startDate and endDate query parameters are required (format: YYYYMMDD)"
  end.

Definition bad_request_body (r : Route) : JSON :=
  JObject [("error", JString (required_message r))].

(** The client the handler builds. *)
Definition route_client (r : Route) (req : Request) : ClientConfig :=
  match r with
  | NflGames =>
      {| cfg_leagueId := Some 0; cfg_espnS2 := None; cfg_SWID := None |}
  | _ => createClient (params req !! "leagueId") (headers req !! "espnS2")
           (headers req !! "SWID")
  end.

(** The call the handler awaits. *)
Definition upstream_call (r : Route) (req : Request) : Call :=
  let num (name : string) := parseInt (ToString (query req !! name)) in
  {| client := route_client r req;
     fetch :=
       match r with
       | Info => getLeagueInfo (num "seasonId")
       | Teams => getTeamsAtWeek (num "seasonId") (num "scoringPeriodId")
       | Boxscores =>
           getBoxscoreForWeek (num "seasonId") (num "matchupPeriodId")
             (num "scoringPeriodId")
       | FreeAgents => getFreeAgents (num "seasonId") (num "scoringPeriodId")
       | Draft => getDraftInfo (num "seasonId")
       | NflGames =>
           getNFLGamesForPeriod (query req !! "startDate")
             (query req !! "endDate")
       end |}.

(** The label logged by the [catch] block. *)
Definition log_label (r : Route) : string :=
  match r with
  | Info => "Error fetching league info:"
  | Teams => "Error fetching teams:"
  | Boxscores => "Error fetching boxscores:"
  | FreeAgents => "Error fetching free agents:"
  | Draft => "Error fetching draft info:"
  | NflGames => "Error fetching NFL games:"
  end.

(** The [error] text of the 500 response. *)
Definition failure_message (r : Route) : string :=
  match r with
  | Info => "Failed to fetch league information"
  | Teams => "Failed to fetch teams"
  | Boxscores => "Failed to fetch boxscores"
  | FreeAgents => "Failed to fetch free agents"
  | Draft => "Failed to fetch draft information"
  | NflGames => "Failed to fetch NFL games"
  end.

Definition failure_body (r : Route) (message : string) : JSON :=
  JObject [("error", JString (failure_message r));
           ("message", JString message)].

(** *** Vocabulary of the statements *)

(** A lookup of [key] at time [t] does not short-circuit: there is no entry,
    or [t - timestamp >= duration]. *)
Definition misses (duration t : Z) (store : Cache) (key : string) : Prop :=
  store !! key = None
  ∨ ∃ entry, store !! key = Some entry ∧ duration ≤ t - timestamp entry.

(** The request with both credential headers removed. *)
Definition without_credentials (req : Request) : Request :=
  {| originalUrl := originalUrl req; params := params req;
     query := query req;
     headers := delete "espnS2" (delete "SWID" (headers req)) |}.

(** The world in which the wrapped operation starts on a miss. *)
Definition passed_on (req : Request) (t : Z) (w : World) : World :=
  {| cache := cache w; now := t;
     res := {| statusCode := 200; capture := Some (originalUrl req);
               sent := [] |};
     calls := calls w; console := console w |}.

(** *** Sample inputs, used by the closed instances at the end *)

(** [parseInt] on the strings that occur in the samples. *)
Definition sample_parseInt (s : string) : option Z :=
  if String.eqb s "2024" then Some 2024
  else if String.eqb s "100" then Some 100
  else None.

(** A server that has just started: empty store, nothing logged. *)
Definition idle : World :=
  {| cache := ∅; now := 0; res := new_response; calls := [];
     console := [] |}.

(** [GET /api/league/100/info?seasonId=2024], without cookies. *)
Definition info_request : Request :=
  {| originalUrl := "/api/league/100/info?seasonId=2024";
     params := {[ "leagueId" := "100" ]};
     query := {[ "seasonId" := "2024" ]};
     headers := ∅ |}.

(** The same request from a caller who sends both cookies. *)
Definition info_request_private : Request :=
  {| originalUrl := "/api/league/100/info?seasonId=2024";
     params := {[ "leagueId" := "100" ]};
     query := {[ "seasonId" := "2024" ]};
     headers := {[ "espnS2" := "AEB1"; "SWID" := "{7C}" ]} |}.

(** The same request from a caller who sends only [espnS2]. *)
Definition info_request_one_cookie : Request :=
  {| originalUrl := "/api/league/100/info?seasonId=2024";
     params := {[ "leagueId" := "100" ]};
     query := {[ "seasonId" := "2024" ]};
     headers := {[ "espnS2" := "AEB1" ]} |}.

(** [GET /api/league/100/info]: the required [seasonId] is missing. *)
Definition info_request_no_season : Request :=
  {| originalUrl := "/api/league/100/info";
     params := {[ "leagueId" := "100" ]};
     query := ∅;
     headers := ∅ |}.

Definition league_payload : JSON :=
  JObject [("name", JString "X"); ("size", JNumber 10)].

(** An upstream that answers after 40 ms. *)
Definition answering_upstream : Upstream :=
  {| reply := fun _ => inr league_payload; elapsed := 40;
     meanwhile := fun store => store |}.

(** An upstream whose call is rejected after 40 ms. *)
Definition failing_upstream : Upstream :=
  {| reply := fun _ => inl "Request failed with status code 401";
     elapsed := 40;
     meanwhile := fun store => store |}.

(** A store that holds [league_payload] for [info_request], captured at
    time 1000. *)
Definition warm : World :=
  {| cache := {[ "/api/league/100/info?seasonId=2024"
                 := {| data := league_payload; timestamp := 1000 |} ]};
     now := 1000; res := new_response; calls := []; console := [] |}.

(** ** Properties *)

(** Unfold the operations of the monad, so that a computation over a world
    shows as the world it ends in. *)
Ltac run_monad :=
  unfold cacheMiddleware, res_json, express_json, install_capture,
    res_status, console_error, cache_get, cache_set, cache_clear, Date_now,
    await, try_catch, mbind, M_bind, mret, M_ret, set_res, set_cache, start,
    passed_on;
  cbn.

(** *** The handlers have the common shape *)

Lemma handler_shape (r : Route) (up : Upstream) (req : Request) :
  handler r up req =
  try_catch
    (if missing_param r req
     then res_status 400;; res_json (bad_request_body r)
     else payload ← await up (upstream_call r req); res_json payload)
    (fun error =>
       console_error (log_label r) error;;
       res_status 500;;
       res_json (failure_body r error)).
Proof. destruct r; reflexivity. Qed.

(** *** The capturing closure *)

(** With the closure installed, [res.json(body)] stores [body] under the key
    at the current time, whatever was there, and hands it on unchanged with
    the status in force. *)
Lemma res_json_captures (key : string) (body : JSON) (w : World) :
  capture (res w) = Some key ->
  res_json body w =
  (Returned tt,
   {| cache := <[key := {| data := body; timestamp := now w |}]> (cache w);
      now := now w;
      res := {| statusCode := statusCode (res w); capture := Some key;
                sent := sent (res w) ++ [(statusCode (res w), body)] |};
      calls := calls w; console := console w |}).
Proof.
  intros Hcap. run_monad. rewrite Hcap. reflexivity.
Qed.

(** *** The two branches of the middleware *)

Lemma middleware_hit (duration : Z) (req : Request) (next : M unit)
    (t : Z) (w : World) (entry : CacheEntry) :
  cache w !! originalUrl req = Some entry ->
  t - timestamp entry < duration ->
  cacheMiddleware duration req next (start t w) =
  (Returned tt,
   {| cache := cache w; now := t;
      res := {| statusCode := 200; capture := None;
                sent := [(200, data entry)] |};
      calls := calls w; console := console w |}).
Proof.
  intros Hget Hfresh. run_monad. rewrite Hget. cbn.
  rewrite bool_decide_eq_true_2 by exact Hfresh. reflexivity.
Qed.

Lemma middleware_miss (duration : Z) (req : Request) (next : M unit)
    (t : Z) (w : World) :
  misses duration t (cache w) (originalUrl req) ->
  cacheMiddleware duration req next (start t w) = next (passed_on req t w).
Proof.
  intros [Hnone | (entry & Hget & Hstale)]; run_monad.
  - rewrite Hnone. reflexivity.
  - rewrite Hget. cbn. rewrite bool_decide_eq_false_2 by lia. reflexivity.
Qed.

(** [misses] is exactly the failure of the middleware's test. *)
Lemma misses_or_hits (duration t : Z) (store : Cache) (key : string) :
  misses duration t store key
  ∨ ∃ entry, store !! key = Some entry ∧ t - timestamp entry < duration.
Proof.
  unfold misses. destruct (store !! key) as [entry|]; [|left; left; reflexivity].
  destruct (decide (t - timestamp entry < duration)).
  - right. by exists entry.
  - left. right. exists entry. split; [done | lia].
Qed.

(** *** The three ways a handler ends after a miss *)

Lemma handler_bad_request (r : Route) (up : Upstream) (req : Request)
    (t : Z) (w : World) :
  missing_param r req = true ->
  handler r up req (passed_on req t w) =
  (Returned tt,
   {| cache := <[originalUrl req
                 := {| data := bad_request_body r; timestamp := t |}]>
                 (cache w);
      now := t;
      res := {| statusCode := 400; capture := Some (originalUrl req);
                sent := [(400, bad_request_body r)] |};
      calls := calls w; console := console w |}).
Proof.
  intros Hmissing. rewrite handler_shape, Hmissing. reflexivity.
Qed.

Lemma handler_success (r : Route) (up : Upstream) (req : Request)
    (t : Z) (w : World) (payload : JSON) :
  missing_param r req = false ->
  reply up (upstream_call r req) = inr payload ->
  handler r up req (passed_on req t w) =
  (Returned tt,
   {| cache := <[originalUrl req
                 := {| data := payload; timestamp := t + elapsed up |}]>
                 (meanwhile up (cache w));
      now := t + elapsed up;
      res := {| statusCode := 200; capture := Some (originalUrl req);
                sent := [(200, payload)] |};
      calls := calls w ++ [upstream_call r req]; console := console w |}).
Proof.
  intros Hpresent Hreply. rewrite handler_shape, Hpresent.
  run_monad. rewrite Hreply. reflexivity.
Qed.

Lemma handler_failure (r : Route) (up : Upstream) (req : Request)
    (t : Z) (w : World) (message : string) :
  missing_param r req = false ->
  reply up (upstream_call r req) = inl message ->
  handler r up req (passed_on req t w) =
  (Returned tt,
   {| cache := <[originalUrl req
                 := {| data := failure_body r message;
                       timestamp := t + elapsed up |}]>
                 (meanwhile up (cache w));
      now := t + elapsed up;
      res := {| statusCode := 500; capture := Some (originalUrl req);
                sent := [(500, failure_body r message)] |};
      calls := calls w ++ [upstream_call r req];
      console := console w ++ [(log_label r, message)] |}).
Proof.
  intros Hpresent Hreply. rewrite handler_shape, Hpresent.
  run_monad. rewrite Hreply. reflexivity.
Qed.

(** *** The claims *)

(** C1, as amended.  When the upstream call of a request that missed the
    cache is rejected, the handler answers 500 with the route's failure body,
    and the capturing closure stores that body under the request's key at the
    time of the answer: the closure does not look at the status.  The next
    request for the key is answered from the store with that body as long as
    [now - timestamp < CACHE_DURATION], and reaches the handler again once
    the duration has elapsed. *)
Theorem failed_fetch_is_captured (r : Route) (up : Upstream) (req : Request)
    (t : Z) (w : World) (message : string) :
  misses CACHE_DURATION t (cache w) (originalUrl req) ->
  missing_param r req = false ->
  reply up (upstream_call r req) = inl message ->
  let w1 := (cached_route r up req (start t w)).2 in
  sent (res w1) = [(500, failure_body r message)]
  ∧ cache w1 =
      <[originalUrl req := {| data := failure_body r message;
                              timestamp := t + elapsed up |}]>
        (meanwhile up (cache w))
  ∧ ∀ (up' : Upstream) (req' : Request) (t' : Z),
      originalUrl req' = originalUrl req ->
      (t' - (t + elapsed up) < CACHE_DURATION ->
       let w2 := (cached_route r up' req' (start t' w1)).2 in
       sent (res w2) = [(200, failure_body r message)]
       ∧ calls w2 = calls w1 ∧ cache w2 = cache w1)
      ∧ (CACHE_DURATION ≤ t' - (t + elapsed up) ->
         cached_route r up' req' (start t' w1) =
         handler r up' req' (passed_on req' t' w1)).
Proof.
  intros Hmiss Hpresent Hreply. unfold cached_route.
  rewrite (middleware_miss _ _ _ _ _ Hmiss).
  rewrite (handler_failure _ _ _ _ _ _ Hpresent Hreply). cbn.
  split; [reflexivity | split; [reflexivity |]].
  intros up' req' t' Hurl. split.
  - intros Hfresh.
    erewrite middleware_hit;
      [| cbn; rewrite Hurl; apply lookup_insert_eq | cbn; exact Hfresh].
    cbn. auto.
  - intros Hstale. apply middleware_miss. right.
    eexists. cbn. rewrite Hurl, lookup_insert_eq. split; [reflexivity |].
    cbn. exact Hstale.
Qed.

(** C2, as amended.  A request to a cached route that lacks a required query
    parameter never reaches the upstream client.  When it is not answered
    from the store, the handler returns after a 400 response with the
    route's fixed message, and the capturing closure stores that body under
    the request's key at the current time. *)
Theorem missing_parameter_is_rejected_and_captured (r : Route)
    (up : Upstream) (req : Request) (t : Z) (w : World) :
  missing_param r req = true ->
  let out := cached_route r up req (start t w) in
  calls out.2 = calls w
  ∧ (misses CACHE_DURATION t (cache w) (originalUrl req) ->
     out.1 = Returned tt
     ∧ sent (res out.2) = [(400, bad_request_body r)]
     ∧ cache out.2 =
         <[originalUrl req := {| data := bad_request_body r;
                                 timestamp := t |}]> (cache w)).
Proof.
  intros Hmissing. unfold cached_route. split.
  - destruct (misses_or_hits CACHE_DURATION t (cache w) (originalUrl req))
      as [Hmiss | (entry & Hget & Hfresh)].
    + rewrite (middleware_miss _ _ _ _ _ Hmiss).
      rewrite (handler_bad_request _ _ _ _ _ Hmissing). reflexivity.
    + rewrite (middleware_hit _ _ _ _ _ _ Hget Hfresh). reflexivity.
  - intros Hmiss. rewrite (middleware_miss _ _ _ _ _ Hmiss).
    rewrite (handler_bad_request _ _ _ _ _ Hmissing). cbn. auto.
Qed.

(** C3.  If the store holds [payload], captured at time [t], under the key
    of a request, and the request arrives at time [t'] with
    [t' - t < duration], then the exchange ends with exactly [payload] sent,
    no call to the upstream client, and the same result whatever the
    wrapped operation is: it does not run. *)
Theorem read_within_ttl_returns_stored_payload (duration : Z)
    (req : Request) (next : M unit) (t' : Z) (w : World)
    (payload : JSON) (t : Z) :
  cache w !! originalUrl req = Some {| data := payload; timestamp := t |} ->
  t' - t < duration ->
  let out := cacheMiddleware duration req next (start t' w) in
  out.1 = Returned tt
  ∧ sent (res out.2) = [(200, payload)]
  ∧ calls out.2 = calls w
  ∧ console out.2 = console w
  ∧ ∀ other : M unit, cacheMiddleware duration req other (start t' w) = out.
Proof.
  intros Hget Hfresh. cbn zeta.
  rewrite (middleware_hit _ _ next _ _ _ Hget Hfresh). cbn.
  repeat split. intros other.
  apply (middleware_hit _ _ other _ _ _ Hget Hfresh).
Qed.

(** C4.  When the store has no entry for the key of a request, or the entry
    has [now - timestamp >= duration], the middleware does not answer: it
    installs the capturing closure and runs the wrapped operation.  For the
    six routes, with the required parameters present, that is one new call
    to the upstream client. *)
Theorem absent_or_stale_runs_wrapped_operation (duration : Z)
    (req : Request) (next : M unit) (t : Z) (w : World) :
  cache w !! originalUrl req = None
  ∨ (∃ entry, cache w !! originalUrl req = Some entry
              ∧ duration ≤ t - timestamp entry) ->
  cacheMiddleware duration req next (start t w) = next (passed_on req t w)
  ∧ ∀ (r : Route) (up : Upstream),
      duration = CACHE_DURATION ->
      missing_param r req = false ->
      calls (cached_route r up req (start t w)).2 =
      (calls w ++ [upstream_call r req])%list.
Proof.
  intros Hmiss. split; [exact (middleware_miss _ _ _ _ _ Hmiss) |].
  intros r up -> Hpresent. unfold cached_route.
  rewrite (middleware_miss _ _ _ _ _ Hmiss).
  destruct (reply up (upstream_call r req)) as [message | payload] eqn:Hreply.
  - rewrite (handler_failure _ _ _ _ _ _ Hpresent Hreply). reflexivity.
  - rewrite (handler_success _ _ _ _ _ _ Hpresent Hreply). reflexivity.
Qed.

(** The configuration [createClient] builds carries credentials only when
    both arguments are truthy. *)
Lemma createClient_bare (leagueId espnS2 SWID : option string) :
  truthy espnS2 && truthy SWID = false ->
  createClient leagueId espnS2 SWID =
  {| cfg_leagueId := parseInt (ToString leagueId); cfg_espnS2 := None;
     cfg_SWID := None |}.
Proof. intros Hnot. unfold createClient. rewrite Hnot. reflexivity. Qed.

Lemma createClient_pair (leagueId espnS2 SWID : option string) :
  is_Some (cfg_espnS2 (createClient leagueId espnS2 SWID))
  ∨ is_Some (cfg_SWID (createClient leagueId espnS2 SWID)) ->
  is_Some espnS2 ∧ is_Some SWID.
Proof.
  unfold createClient.
  destruct espnS2 as [a|], SWID as [b|]; cbn;
    try (intros [[? [=]] | [? [=]]]; fail).
  - intros _. split; eexists; reflexivity.
  - rewrite andb_false_r. cbn. intros [[? [=]] | [? [=]]].
Qed.

(** C5.  The key is [req.originalUrl] alone.  When a first request missed
    the cache and its payload was captured, a second request with the same
    URL and any headers at all, arriving while the entry is fresh, finds
    that entry under its own key and is answered with the first caller's
    payload without a call to the upstream client; the exchange is the one
    the first caller would have had. *)
Theorem credentials_do_not_separate_entries (r : Route)
    (up1 up2 : Upstream) (req1 req2 : Request) (t1 t2 : Z) (w : World)
    (payload : JSON) :
  originalUrl req1 = originalUrl req2 ->
  misses CACHE_DURATION t1 (cache w) (originalUrl req1) ->
  missing_param r req1 = false ->
  reply up1 (upstream_call r req1) = inr payload ->
  t2 - (t1 + elapsed up1) < CACHE_DURATION ->
  let w1 := (cached_route r up1 req1 (start t1 w)).2 in
  let out := cached_route r up2 req2 (start t2 w1) in
  cache w1 !! originalUrl req2 =
    Some {| data := payload; timestamp := t1 + elapsed up1 |}
  ∧ sent (res out.2) = [(200, payload)]
  ∧ calls out.2 = calls w1
  ∧ out = cached_route r up2 req1 (start t2 w1).
Proof.
  intros Hurl Hmiss Hpresent Hreply Hfresh. unfold cached_route.
  rewrite (middleware_miss _ _ _ _ _ Hmiss).
  rewrite (handler_success _ _ _ _ _ _ Hpresent Hreply). cbn.
  rewrite <- Hurl, lookup_insert_eq. split; [reflexivity |].
  erewrite (middleware_hit _ req2);
    [| cbn; rewrite <- Hurl; apply lookup_insert_eq | cbn; exact Hfresh].
  erewrite (middleware_hit _ req1);
    [| cbn; apply lookup_insert_eq | cbn; exact Hfresh].
  cbn. auto.
Qed.

(** C6.  The clear route returns normally from every state with the store
    empty and its fixed message sent, and after it every request, for any
    key and at any time, is passed on to the wrapped operation. *)
Theorem clear_empties_the_store (t : Z) (w : World) :
  let out := clear_cache (start t w) in
  out.1 = Returned tt
  ∧ cache out.2 = ∅
  ∧ sent (res out.2) =
      [(200, JObject [("message", JString "Cache cleared successfully")])]
  ∧ ∀ (duration : Z) (req : Request) (next : M unit) (t' : Z),
      cacheMiddleware duration req next (start t' out.2) =
      next (passed_on req t' out.2).
Proof.
  cbn zeta. do 3 (split; [reflexivity |]).
  intros duration req next t'. apply middleware_miss. left.
  apply lookup_empty.
Qed.

(** C7.  On a miss, the body the wrapped operation hands to [res.json] is
    stored under the request's key with the time of that call as its
    timestamp, in place of whatever entry the key had, and the same body
    goes out to the sender: for an operation that sets a status and writes
    one body, and for each of the six routes however its handler ends. *)
Theorem miss_captures_and_forwards (r : Route) (up : Upstream)
    (req : Request) (t : Z) (w : World) (code : Z) (body : JSON) :
  misses CACHE_DURATION t (cache w) (originalUrl req) ->
  (let out := cacheMiddleware CACHE_DURATION req
                (res_status code;; res_json body) (start t w) in
   cache out.2 =
     <[originalUrl req := {| data := body; timestamp := t |}]> (cache w)
   ∧ sent (res out.2) = [(code, body)])
  ∧ (let w1 := (cached_route r up req (start t w)).2 in
     ∃ (status : Z) (written : JSON),
       sent (res w1) = [(status, written)]
       ∧ cache w1 =
           <[originalUrl req := {| data := written; timestamp := now w1 |}]>
             (if missing_param r req then cache w
              else meanwhile up (cache w))
       ∧ cache w1 !! originalUrl req =
           Some {| data := written; timestamp := now w1 |}).
Proof.
  intros Hmiss. split.
  - cbn zeta. rewrite (middleware_miss _ _ _ _ _ Hmiss). cbn. auto.
  - unfold cached_route. rewrite (middleware_miss _ _ _ _ _ Hmiss).
    destruct (missing_param r req) eqn:Hparam.
    + rewrite (handler_bad_request _ _ _ _ _ Hparam). cbn.
      eexists _, _. rewrite lookup_insert_eq. auto.
    + destruct (reply up (upstream_call r req)) as [message | payload]
        eqn:Hreply.
      * rewrite (handler_failure _ _ _ _ _ _ Hparam Hreply). cbn.
        eexists _, _. rewrite lookup_insert_eq. auto.
      * rewrite (handler_success _ _ _ _ _ _ Hparam Hreply). cbn.
        eexists _, _. rewrite lookup_insert_eq. auto.
Qed.

(** C8.  The health route returns normally from every state, sends
    [status] and the current time, and leaves the store and the record of
    upstream calls as they were. *)
Theorem health_touches_nothing (t : Z) (w : World) :
  let out := health (start t w) in
  out.1 = Returned tt
  ∧ sent (res out.2) =
      [(200, JObject [("status", JString "ok");
                      ("timestamp", JString (toISOString t))])]
  ∧ cache out.2 = cache w
  ∧ calls out.2 = calls w.
Proof. cbn. auto. Qed.

(** C9.  The client configuration carries a credential only when the
    request supplied both headers.  A request that supplies exactly one of
    them gets a configuration with neither, and on every cached route its
    exchange is the exchange of the same request without credential
    headers. *)
Theorem credentials_forwarded_only_as_a_pair (r : Route) (up : Upstream)
    (req : Request) :
  let espnS2 := headers req !! "espnS2" in
  let SWID := headers req !! "SWID" in
  let config := createClient (params req !! "leagueId") espnS2 SWID in
  (is_Some (cfg_espnS2 (client (upstream_call r req)))
   ∨ is_Some (cfg_SWID (client (upstream_call r req))) ->
   is_Some espnS2 ∧ is_Some SWID)
  ∧ ((is_Some espnS2 ∧ SWID = None) ∨ (espnS2 = None ∧ is_Some SWID) ->
     config = {| cfg_leagueId := parseInt (ToString (params req !! "leagueId"));
                 cfg_espnS2 := None; cfg_SWID := None |}
     ∧ cfg_espnS2 (client (upstream_call r req)) = None
     ∧ cfg_SWID (client (upstream_call r req)) = None
     ∧ ∀ w : World,
         cached_route r up req w =
         cached_route r up (without_credentials req) w).
Proof.
  cbn zeta. split.
  { destruct r; try apply createClient_pair.
    cbn. intros [[? [=]] | [? [=]]]. }
  intros Hone.
  assert (truthy (headers req !! "espnS2") && truthy (headers req !! "SWID")
          = false) as Hnot.
  { destruct Hone as [[_ ->] | [-> _]]; [apply andb_false_r | reflexivity]. }
  assert (upstream_call r req = upstream_call r (without_credentials req))
    as Hcall.
  { unfold upstream_call, route_client, without_credentials. cbn.
    rewrite lookup_delete_eq, lookup_delete_ne, lookup_delete_eq by done.
    rewrite (createClient_bare _ _ _ Hnot).
    destruct r; reflexivity. }
  split; [exact (createClient_bare _ _ _ Hnot) |].
  split; [| split].
  - destruct r; cbn; rewrite ?(createClient_bare _ _ _ Hnot); reflexivity.
  - destruct r; cbn; rewrite ?(createClient_bare _ _ _ Hnot); reflexivity.
  - intros w. unfold cached_route. rewrite !handler_shape, <- Hcall.
    replace (missing_param r (without_credentials req))
      with (missing_param r req) by (destruct r; reflexivity).
    reflexivity.
Qed.

(** C10.  An exchange answered from the store ends with the store exactly
    as it was: the entry keeps its timestamp, so a later request with
    [now - timestamp >= duration] is passed on to the wrapped operation
    although the entry was read in between. *)
Theorem hit_leaves_store_unchanged (duration : Z) (req : Request)
    (next : M unit) (t : Z) (w : World) (entry : CacheEntry) :
  cache w !! originalUrl req = Some entry ->
  t - timestamp entry < duration ->
  let out := cacheMiddleware duration req next (start t w) in
  cache out.2 = cache w
  ∧ cache out.2 !! originalUrl req = Some entry
  ∧ ∀ (later : Z) (next' : M unit),
      duration ≤ later - timestamp entry ->
      cacheMiddleware duration req next' (start later out.2) =
      next' (passed_on req later out.2).
Proof.
  intros Hget Hfresh. cbn zeta.
  rewrite (middleware_hit _ _ _ _ _ _ Hget Hfresh). cbn.
  split; [reflexivity | split; [exact Hget |]].
  intros later next' Hstale. apply middleware_miss. right.
  exists entry. cbn. auto.
Qed.

(** *** Further properties of the routes *)

#[local] Set Default Proof Using "Type".

(** The query parameters the guard of each route tests. *)
Definition required (r : Route) : list string :=
  match r with
  | Info | Draft => ["seasonId"]
  | Teams | FreeAgents => ["seasonId"; "scoringPeriodId"]
  | Boxscores => ["seasonId"; "matchupPeriodId"; "scoringPeriodId"]
  | NflGames => ["startDate"; "endDate"]
  end.

(** A server history: exchanges that run one after the other.  A [Get]
    carries the route, what the upstream does during its [await], the
    request and the time it arrives. *)
Inductive Event : Type :=
| Get (r : Route) (up : Upstream) (req : Request) (t : Z)
| Health (t : Z)
| Clear (t : Z).

Definition step (w : World) (e : Event) : World :=
  match e with
  | Get r up req t => (cached_route r up req (start t w)).2
  | Health t => (health (start t w)).2
  | Clear t => (clear_cache (start t w)).2
  end.

Definition run (w : World) (history : list Event) : World :=
  foldl step w history.

(** What each exchange of a history wrote to its socket, in order. *)
Fixpoint answers (w : World) (history : list Event)
  : list (list (Z * JSON)) :=
  match history with
  | [] => []
  | e :: rest => sent (res (step w e)) :: answers (step w e) rest
  end.

(** The number of [Get] events of a history. *)
Fixpoint gets (history : list Event) : nat :=
  match history with
  | [] => 0
  | Get _ _ _ _ :: rest => S (gets rest)
  | _ :: rest => gets rest
  end.

(** The upstream of the event leaves the store alone during its [await]. *)
Definition undisturbed (e : Event) : Prop :=
  match e with
  | Get _ up _ _ => ∀ store, meanwhile up store = store
  | _ => True
  end.

(** The event is a request for [key] arriving while [entry] is fresh. *)
Definition reads_fresh (key : string) (entry : CacheEntry) (e : Event)
  : Prop :=
  match e with
  | Get _ _ req t =>
      originalUrl req = key ∧ t - timestamp entry < CACHE_DURATION
  | _ => False
  end.

(** The addresses the [Get] events of a history ask for. *)
Fixpoint urls (history : list Event) : list string :=
  match history with
  | [] => []
  | Get _ _ req _ :: rest => originalUrl req :: urls rest
  | _ :: rest => urls rest
  end.

(** [GET /api/league/100/info?seasonId=]: [seasonId] is present and
    empty. *)
Definition info_request_empty_season : Request :=
  {| originalUrl := "/api/league/100/info?seasonId=";
     params := {[ "leagueId" := "100" ]};
     query := {[ "seasonId" := "" ]};
     headers := ∅ |}.

(** [GET /api/nfl-games?startDate=20240901&endDate=20240908], without and
    with cookies. *)
Definition games_request : Request :=
  {| originalUrl := "/api/nfl-games?startDate=20240901&endDate=20240908";
     params := ∅;
     query := {[ "startDate" := "20240901"; "endDate" := "20240908" ]};
     headers := ∅ |}.

Definition games_request_private : Request :=
  {| originalUrl := "/api/nfl-games?startDate=20240901&endDate=20240908";
     params := ∅;
     query := {[ "startDate" := "20240901"; "endDate" := "20240908" ]};
     headers := {[ "espnS2" := "AEB1"; "SWID" := "{7C}" ]} |}.

Lemma truthy_spec (v : option string) :
  truthy v = true ↔ ∃ s, v = Some s ∧ s ≠ "".
Proof.
  destruct v as [s|]; cbn.
  - rewrite negb_true_iff. split.
    + intros Hne. exists s. split; [reflexivity |].
      intros ->. discriminate.
    + intros (s' & [= <-] & Hne). apply String.eqb_neq. exact Hne.
  - split; [discriminate | intros (s & [=] & _)].
Qed.

Lemma not_truthy_spec (v : option string) :
  negb (truthy v) = true ↔ v = None ∨ v = Some "".
Proof.
  destruct v as [s|]; cbn.
  - rewrite negb_involutive, String.eqb_eq. split.
    + intros ->. right. reflexivity.
    + intros [[=] | [= ->]]. reflexivity.
  - split; [left; reflexivity | reflexivity].
Qed.

(** The guard of a route fires exactly when one of the parameters it
    requires is absent or the empty string. *)
Lemma missing_param_spec (r : Route) (req : Request) :
  missing_param r req = true ↔
  ∃ name, name ∈ required r
          ∧ (query req !! name = None ∨ query req !! name = Some "").
Proof.
  destruct r; cbn; rewrite ?orb_true_iff, !not_truthy_spec;
    (split;
     [ intros H; repeat destruct H as [H | H];
       eexists; (split; [| first [left; exact H | right; exact H]]);
       set_solver
     | intros (name & Hin & H);
       repeat (apply elem_of_cons in Hin as [-> | Hin]; [tauto |]);
       by apply elem_of_nil in Hin ]).
Qed.

(** An exchange answered from the store ends in [start t w] with the
    entry's payload sent. *)
Lemma cached_route_hit (r : Route) (up : Upstream) (req : Request) (t : Z)
    (w : World) (entry : CacheEntry) :
  cache w !! originalUrl req = Some entry ->
  t - timestamp entry < CACHE_DURATION ->
  cached_route r up req (start t w) =
  (Returned tt,
   {| cache := cache w; now := t;
      res := {| statusCode := 200; capture := None;
                sent := [(200, data entry)] |};
      calls := calls w; console := console w |}).
Proof. intros Hget Hfresh. by apply middleware_hit. Qed.



(** X2.  When nothing else touches the store during the [await], an
    exchange on a cached route changes the store at most under its own
    key, and removes no entry: a stale entry stays until it is
    overwritten. *)
Theorem exchange_touches_own_key_only (r : Route) (up : Upstream)
    (req : Request) (t : Z) (w : World) :
  (∀ store, meanwhile up store = store) ->
  let w1 := (cached_route r up req (start t w)).2 in
  (∀ k, k ≠ originalUrl req -> cache w1 !! k = cache w !! k)
  ∧ (∀ k, is_Some (cache w !! k) -> is_Some (cache w1 !! k)).
Proof.
  intros Hquiet. cbn zeta.
  destruct (misses_or_hits CACHE_DURATION t (cache w) (originalUrl req))
    as [Hmiss | (entry & Hget & Hfresh)].
  - unfold cached_route. rewrite (middleware_miss _ _ _ _ _ Hmiss).
    assert (∀ (e : CacheEntry) (store : Cache),
      (∀ k, k ≠ originalUrl req ->
            <[originalUrl req := e]> store !! k = store !! k)
      ∧ (∀ k, is_Some (store !! k) ->
              is_Some (<[originalUrl req := e]> store !! k))) as Hinsert.
    { intros e store. split.
      - intros k Hk. by apply lookup_insert_ne.
      - intros k Hk. rewrite lookup_insert. by case_decide. }
    destruct (missing_param r req) eqn:Hparam.
    + rewrite (handler_bad_request _ _ _ _ _ Hparam). cbn. apply Hinsert.
    + destruct (reply up (upstream_call r req)) as [message | payload]
        eqn:Hreply.
      * rewrite (handler_failure _ _ _ _ _ _ Hparam Hreply). cbn.
        rewrite Hquiet. apply Hinsert.
      * rewrite (handler_success _ _ _ _ _ _ Hparam Hreply). cbn.
        rewrite Hquiet. apply Hinsert.
  - rewrite (cached_route_hit _ _ _ _ _ _ Hget Hfresh). cbn. auto.
Qed.


(** X4.  On a miss, the answer is the route's 400 response exactly when a
    parameter the route requires is absent or present with the empty string
    as its value: [?seasonId=] is rejected like a missing [seasonId]. *)
Theorem absent_or_empty_parameter_is_rejected (r : Route) (up : Upstream)
    (req : Request) (t : Z) (w : World) :
  misses CACHE_DURATION t (cache w) (originalUrl req) ->
  let w1 := (cached_route r up req (start t w)).2 in
  (∃ name, name ∈ required r
           ∧ (query req !! name = None ∨ query req !! name = Some ""))
  ↔ sent (res w1) = [(400, bad_request_body r)].
Proof.
  intros Hmiss. cbn zeta. rewrite <- missing_param_spec.
  unfold cached_route. rewrite (middleware_miss _ _ _ _ _ Hmiss).
  destruct (missing_param r req) eqn:Hparam.
  - rewrite (handler_bad_request _ _ _ _ _ Hparam). cbn.
    split; intros _; reflexivity.
  - destruct (reply up (upstream_call r req)) as [message | payload]
      eqn:Hreply.
    + rewrite (handler_failure _ _ _ _ _ _ Hparam Hreply). cbn.
      split; [discriminate | intros [=]].
    + rewrite (handler_success _ _ _ _ _ _ Hparam Hreply). cbn.
      split; [discriminate | intros [=]].
Qed.

(** X5.  [createClient] forwards the two credentials, unchanged, exactly
    when both are non-empty strings; when either is absent or empty the
    configuration holds the parsed league id alone, so an empty credential
    also drops the other one. *)
Theorem createClient_needs_both_non_empty
    (leagueId espnS2 SWID : option string) :
  ((∃ a b, espnS2 = Some a ∧ SWID = Some b ∧ a ≠ "" ∧ b ≠ "")
   ∧ createClient leagueId espnS2 SWID =
       {| cfg_leagueId := parseInt (ToString leagueId);
          cfg_espnS2 := espnS2; cfg_SWID := SWID |})
  ∨ ((espnS2 = None ∨ espnS2 = Some "" ∨ SWID = None ∨ SWID = Some "")
     ∧ createClient leagueId espnS2 SWID =
         {| cfg_leagueId := parseInt (ToString leagueId);
            cfg_espnS2 := None; cfg_SWID := None |}).
Proof.
  unfold createClient.
  destruct (truthy espnS2) eqn:Ha; [destruct (truthy SWID) eqn:Hb |].
  - left. apply truthy_spec in Ha as (a & -> & Hane).
    apply truthy_spec in Hb as (b & -> & Hbne).
    split; [| reflexivity]. exists a, b. auto.
  - right. split; [| reflexivity].
    assert (negb (truthy SWID) = true) as Hnot by (by rewrite Hb).
    apply not_truthy_spec in Hnot. tauto.
  - right. split; [| reflexivity].
    assert (negb (truthy espnS2) = true) as Hnot by (by rewrite Ha).
    apply not_truthy_spec in Hnot. tauto.
Qed.

(** X6.  The NFL games route never looks at the caller: its client is
    built from [{ leagueId: 0 }] alone, and two requests with the same
    address and query have the same exchange whatever their headers and
    route parameters are. *)
Theorem nfl_games_ignores_the_caller (up : Upstream) (req req' : Request)
    (w : World) :
  originalUrl req = originalUrl req' ->
  query req = query req' ->
  client (upstream_call NflGames req) =
    {| cfg_leagueId := Some 0; cfg_espnS2 := None; cfg_SWID := None |}
  ∧ cached_route NflGames up req w = cached_route NflGames up req' w.
Proof.
  intros Hurl Hquery. split; [reflexivity |].
  unfold cached_route, cacheMiddleware, handler, nfl_games.
  rewrite Hurl, Hquery. reflexivity.
Qed.

(** X7.  The 400 body of a rejected request is stored like any other, so
    the same address asked again while the entry is fresh is answered from
    the store: the body of the rejection, now with status 200, and the
    handler's guard is not run again. *)
Theorem rejection_is_replayed_with_status_200 (r : Route)
    (up up' : Upstream) (req req' : Request) (t t' : Z) (w : World) :
  misses CACHE_DURATION t (cache w) (originalUrl req) ->
  missing_param r req = true ->
  originalUrl req' = originalUrl req ->
  t' - t < CACHE_DURATION ->
  let w1 := (cached_route r up req (start t w)).2 in
  let out := cached_route r up' req' (start t' w1) in
  sent (res w1) = [(400, bad_request_body r)]
  ∧ sent (res out.2) = [(200, bad_request_body r)]
  ∧ calls out.2 = calls w
  ∧ cache out.2 = cache w1.
Proof.
  intros Hmiss Hparam Hurl Hfresh. cbn zeta.
  pose proof (handler_bad_request r up req t w Hparam) as Hfirst.
  rewrite <- (middleware_miss CACHE_DURATION _ _ _ _ Hmiss) in Hfirst.
  change (cacheMiddleware CACHE_DURATION req (handler r up req))
    with (cached_route r up req) in Hfirst.
  rewrite !Hfirst. cbn.
  erewrite cached_route_hit;
    [| cbn; rewrite Hurl; apply lookup_insert_eq | cbn; exact Hfresh].
  cbn. auto.
Qed.

(** What one event does to the record of upstream calls. *)
Lemma step_calls (w : World) (e : Event) :
  ∃ new, calls (step w e) = (calls w ++ new)%list
         ∧ (length new ≤ gets [e])%nat.
Proof.
  destruct e as [r up req t | t | t]; cbn.
  - destruct (misses_or_hits CACHE_DURATION t (cache w) (originalUrl req))
      as [Hmiss | (entry & Hget & Hfresh)].
    + unfold cached_route. rewrite (middleware_miss _ _ _ _ _ Hmiss).
      destruct (missing_param r req) eqn:Hparam.
      * rewrite (handler_bad_request _ _ _ _ _ Hparam). cbn.
        exists []. rewrite app_nil_r. cbn. split; [reflexivity | lia].
      * destruct (reply up (upstream_call r req)) as [message | payload]
          eqn:Hreply.
        -- rewrite (handler_failure _ _ _ _ _ _ Hparam Hreply). cbn.
           eexists. split; [reflexivity | cbn; lia].
        -- rewrite (handler_success _ _ _ _ _ _ Hparam Hreply). cbn.
           eexists. split; [reflexivity | cbn; lia].
    + rewrite (cached_route_hit _ _ _ _ _ _ Hget Hfresh). cbn.
      exists []. rewrite app_nil_r. cbn. split; [reflexivity | lia].
  - exists []. rewrite app_nil_r. cbn. split; [reflexivity | lia].
  - exists []. rewrite app_nil_r. cbn. split; [reflexivity | lia].
Qed.

Lemma gets_cons (e : Event) (history : list Event) :
  gets (e :: history) = (gets [e] + gets history)%nat.
Proof. destruct e; reflexivity. Qed.

(** X8.  Over any history of exchanges the record of upstream calls only
    grows at its end, by at most one call for each request to a cached
    route; health checks and cache clears add none. *)
Theorem history_calls_upstream_at_most_once_per_get (history : list Event)
    (w : World) :
  ∃ new, calls (run w history) = (calls w ++ new)%list
         ∧ (length new ≤ gets history)%nat.
Proof.
  revert w. induction history as [| e history IH]; intros w.
  - exists []. rewrite app_nil_r. cbn. split; [reflexivity | lia].
  - destruct (step_calls w e) as (first & Hfirst & Hone).
    destruct (IH (step w e)) as (later & Hlater & Hmany).
    exists (first ++ later)%list. unfold run in *. cbn [foldl].
    rewrite Hlater, Hfirst, <- app_assoc. split; [reflexivity |].
    rewrite length_app, gets_cons. lia.
Qed.

(** What one event does to the store when nothing disturbs it. *)
Lemma step_cache (w : World) (e : Event) :
  undisturbed e ->
  cache (step w e) = cache w
  ∨ (∃ key entry, urls [e] = [key]
                  ∧ cache (step w e) = <[key := entry]> (cache w))
  ∨ cache (step w e) = ∅.
Proof.
  destruct e as [r up req t | t | t]; cbn; intros Hquiet.
  - destruct (misses_or_hits CACHE_DURATION t (cache w) (originalUrl req))
      as [Hmiss | (entry & Hget & Hfresh)].
    + unfold cached_route. rewrite (middleware_miss _ _ _ _ _ Hmiss).
      destruct (missing_param r req) eqn:Hparam.
      * rewrite (handler_bad_request _ _ _ _ _ Hparam). cbn.
        right. left. eexists _, _. split; reflexivity.
      * destruct (reply up (upstream_call r req)) as [message | payload]
          eqn:Hreply.
        -- rewrite (handler_failure _ _ _ _ _ _ Hparam Hreply). cbn.
           rewrite Hquiet.
           right. left. eexists _, _. split; reflexivity.
        -- rewrite (handler_success _ _ _ _ _ _ Hparam Hreply). cbn.
           rewrite Hquiet.
           right. left. eexists _, _. split; reflexivity.
    + rewrite (cached_route_hit _ _ _ _ _ _ Hget Hfresh). cbn. by left.
  - by left.
  - right. right. reflexivity.
Qed.

Lemma urls_cons (e : Event) (history : list Event) :
  urls (e :: history) = (urls [e] ++ urls history)%list.
Proof. destruct e; reflexivity. Qed.

Lemma urls_one_get (e : Event) (key : string) :
  urls [e] = [key] -> gets [e] = 1%nat.
Proof. destruct e; cbn; [reflexivity | discriminate | discriminate]. Qed.

(** X9.  Over any history in which no [await] is disturbed, the store
    holds entries only under keys it held at the start or under addresses
    that were requested, and it grows by at most one entry for each request
    to a cached route. *)
Theorem history_store_holds_requested_addresses (history : list Event)
    (w : World) :
  Forall undisturbed history ->
  (∀ k, is_Some (cache (run w history) !! k) ->
        is_Some (cache w !! k) ∨ k ∈ urls history)
  ∧ (size (cache (run w history)) ≤ size (cache w) + gets history)%nat.
Proof.
  intros Hquiet. revert w.
  induction Hquiet as [| e history He _ IH]; intros w.
  - cbn. split; [auto | lia].
  - destruct (IH (step w e)) as (Hkeys & Hsize).
    unfold run in *. cbn [foldl]. rewrite urls_cons, gets_cons.
    destruct (step_cache w e He)
      as [Hsame | [(key & entry & Hurl & Hins) | Hclear]].
    + rewrite Hsame in *. split.
      * intros k Hk. destruct (Hkeys k Hk) as [? | ?]; [by left |].
        right. apply elem_of_app. by right.
      * lia.
    + rewrite Hins in *. rewrite Hurl, (urls_one_get _ _ Hurl). split.
      * intros k Hk. destruct (Hkeys k Hk) as [Hold | Hlater].
        -- apply lookup_insert_is_Some' in Hold as [<- | Hold].
           ++ right. apply elem_of_app. left.
              by apply list_elem_of_singleton.
           ++ by left.
        -- right. apply elem_of_app. by right.
      * pose proof (map_size_insert key entry (cache w)) as Hgrow.
        destruct (cache w !! key); cbn in Hgrow; lia.
    + rewrite Hclear in *. split.
      * intros k Hk. destruct (Hkeys k Hk) as [Hold | Hlater].
        -- rewrite lookup_empty in Hold. by destruct Hold.
        -- right. apply elem_of_app. by right.
      * rewrite map_size_empty in Hsize. lia.
Qed.

(** X10.  Any number of requests for a key, each arriving while the
    stored entry is fresh, are all answered with status 200 and the stored
    payload; the store, the record of upstream calls and the console end as
    they began. *)
Theorem fresh_reads_never_reach_upstream (key : string)
    (entry : CacheEntry) (history : list Event) (w : World) :
  cache w !! key = Some entry ->
  Forall (reads_fresh key entry) history ->
  cache (run w history) = cache w
  ∧ calls (run w history) = calls w
  ∧ console (run w history) = console w
  ∧ answers w history = replicate (length history) [(200, data entry)].
Proof.
  intros Hget Hreads. revert w Hget.
  induction Hreads as [| e history He _ IH]; intros w Hget.
  - cbn. auto.
  - destruct e as [r up req t | t | t]; try (by destruct He).
    destruct He as (Hurl & Hfresh). rewrite <- Hurl in Hget.
    unfold run in *. cbn [foldl answers step length replicate].
    pose proof (cached_route_hit r up req t w entry Hget Hfresh) as Hhit.
    rewrite Hhit. cbn [snd].
    destruct (IH {| cache := cache w; now := t;
                    res := {| statusCode := 200; capture := None;
                              sent := [(200, data entry)] |};
                    calls := calls w; console := console w |})
      as (Hcache & Hcalls & Hconsole & Hanswers).
    { cbn. rewrite <- Hurl. exact Hget. }
    rewrite Hcache, Hcalls, Hconsole, Hanswers. cbn. auto.
Qed.

End Server.

(** ** Closed instances *)

(** C1 as stated does not hold.  The upstream call for [info_request] is
    rejected and the handler answers 500; the store, empty before, then holds
    the failure body under the request's key, and the same request 960 ms
    later is answered from the store with that body and status 200, without
    a call to an upstream that would have answered. *)
Lemma failed_fetch_is_written_to_store :
  let first := cached_route sample_parseInt Info failing_upstream
                 info_request (start 0 idle) in
  let second := cached_route sample_parseInt Info answering_upstream
                  info_request (start 1000 first.2) in
  sent (res first.2) =
    [(500, failure_body Info "Request failed with status code 401")]
  ∧ cache first.2 !! originalUrl info_request
    ≠ cache idle !! originalUrl info_request
  ∧ sent (res second.2) =
      [(200, failure_body Info "Request failed with status code 401")]
  ∧ calls second.2 = calls first.2.
Proof.
  cbn zeta. split; [reflexivity |]. split; [| split; reflexivity].
  vm_compute. discriminate.
Qed.

Lemma failed_fetch_is_captured_witness :
  let w1 := (cached_route sample_parseInt Info failing_upstream
               info_request (start 0 idle)).2 in
  let w2 := (cached_route sample_parseInt Info answering_upstream
               info_request_private (start 1000 w1)).2 in
  sent (res w1) =
    [(500, failure_body Info "Request failed with status code 401")]
  ∧ cache w1 =
      <[originalUrl info_request
        := {| data := failure_body Info "Request failed with status code 401";
              timestamp := 40 |}]> (cache idle)
  ∧ sent (res w2) =
      [(200, failure_body Info "Request failed with status code 401")]
  ∧ calls w2 = calls w1
  ∧ cache w2 = cache w1.
Proof.
  destruct (failed_fetch_is_captured sample_parseInt Info failing_upstream
              info_request 0 idle "Request failed with status code 401")
    as (Hsent & Hcache & Hnext).
  - left. reflexivity.
  - reflexivity.
  - reflexivity.
  - split; [exact Hsent | split; [exact Hcache |]].
    apply (Hnext answering_upstream info_request_private 1000).
    + reflexivity.
    + vm_compute. reflexivity.
Defined.

(** C2 as stated does not hold.  [info_request_no_season] lacks [seasonId];
    the handler answers 400 and never calls the upstream client, but the
    store, empty before, then holds the 400 body under the request's key. *)
Lemma rejected_request_is_written_to_store :
  let out := cached_route sample_parseInt Info answering_upstream
               info_request_no_season (start 0 idle) in
  missing_param Info info_request_no_season = true
  ∧ sent (res out.2) = [(400, bad_request_body Info)]
  ∧ calls out.2 = calls idle
  ∧ cache out.2 !! originalUrl info_request_no_season
    ≠ cache idle !! originalUrl info_request_no_season.
Proof.
  cbn zeta. do 3 (split; [reflexivity |]). vm_compute. discriminate.
Qed.

Lemma missing_parameter_is_rejected_and_captured_witness :
  let out := cached_route sample_parseInt Info answering_upstream
               info_request_no_season (start 0 idle) in
  calls out.2 = calls idle
  ∧ out.1 = Returned tt
  ∧ sent (res out.2) = [(400, bad_request_body Info)]
  ∧ cache out.2 =
      <[originalUrl info_request_no_season
        := {| data := bad_request_body Info; timestamp := 0 |}]> (cache idle).
Proof.
  destruct (missing_parameter_is_rejected_and_captured sample_parseInt Info
              answering_upstream info_request_no_season 0 idle)
    as (Hcalls & Hmiss).
  - reflexivity.
  - split; [exact Hcalls |]. apply Hmiss. left. reflexivity.
Defined.

Lemma read_within_ttl_returns_stored_payload_witness :
  let out := cacheMiddleware CACHE_DURATION info_request_private
               (handler sample_parseInt Info answering_upstream
                  info_request_private)
               (start 301000 warm) in
  out.1 = Returned tt
  ∧ sent (res out.2) = [(200, league_payload)]
  ∧ calls out.2 = calls warm
  ∧ console out.2 = console warm.
Proof.
  destruct (read_within_ttl_returns_stored_payload CACHE_DURATION
              info_request_private
              (handler sample_parseInt Info answering_upstream
                 info_request_private)
              301000 warm league_payload 1000)
    as (Hret & Hsent & Hcalls & Hconsole & _).
  - reflexivity.
  - vm_compute. reflexivity.
  - auto.
Defined.

Lemma absent_or_stale_runs_wrapped_operation_witness :
  cacheMiddleware CACHE_DURATION info_request
    (handler sample_parseInt Info answering_upstream info_request)
    (start 651000 warm) =
  handler sample_parseInt Info answering_upstream info_request
    (passed_on info_request 651000 warm)
  ∧ calls (cached_route sample_parseInt Info answering_upstream info_request
             (start 651000 warm)).2 =
    (calls warm ++ [upstream_call sample_parseInt Info info_request])%list.
Proof.
  destruct (absent_or_stale_runs_wrapped_operation sample_parseInt
              CACHE_DURATION info_request
              (handler sample_parseInt Info answering_upstream info_request)
              651000 warm)
    as (Hnext & Hcalls).
  - right. exists {| data := league_payload; timestamp := 1000 |}.
    split; [reflexivity | vm_compute; discriminate].
  - split; [exact Hnext |].
    apply (Hcalls Info answering_upstream); reflexivity.
Defined.

Lemma credentials_do_not_separate_entries_witness :
  let w1 := (cached_route sample_parseInt Info answering_upstream
               info_request_private (start 0 idle)).2 in
  let out := cached_route sample_parseInt Info failing_upstream info_request
               (start 300000 w1) in
  cache w1 !! originalUrl info_request =
    Some {| data := league_payload; timestamp := 40 |}
  ∧ sent (res out.2) = [(200, league_payload)]
  ∧ calls out.2 = calls w1
  ∧ out = cached_route sample_parseInt Info failing_upstream
            info_request_private (start 300000 w1).
Proof.
  apply (credentials_do_not_separate_entries sample_parseInt Info
           answering_upstream failing_upstream info_request_private
           info_request 0 300000 idle league_payload).
  - reflexivity.
  - left. reflexivity.
  - reflexivity.
  - reflexivity.
  - vm_compute. reflexivity.
Defined.

Lemma miss_captures_and_forwards_witness :
  let out := cacheMiddleware CACHE_DURATION info_request
               (res_status 201;; res_json league_payload) (start 7 idle) in
  cache out.2 =
    <[originalUrl info_request
      := {| data := league_payload; timestamp := 7 |}]> (cache idle)
  ∧ sent (res out.2) = [(201, league_payload)].
Proof.
  destruct (miss_captures_and_forwards sample_parseInt Info
              answering_upstream info_request 7 idle 201 league_payload)
    as (Hgeneric & _).
  - left. reflexivity.
  - exact Hgeneric.
Defined.

Lemma credentials_forwarded_only_as_a_pair_witness :
  createClient sample_parseInt (Some "100") (Some "AEB1") None =
    {| cfg_leagueId := Some 100; cfg_espnS2 := None; cfg_SWID := None |}
  ∧ cached_route sample_parseInt Info answering_upstream
      info_request_one_cookie (start 0 idle) =
    cached_route sample_parseInt Info answering_upstream
      (without_credentials info_request_one_cookie) (start 0 idle).
Proof.
  destruct (credentials_forwarded_only_as_a_pair sample_parseInt Info
              answering_upstream info_request_one_cookie)
    as (_ & Hone).
  destruct Hone as (Hconfig & _ & _ & Hsame).
  - left. split; [exists "AEB1" |]; reflexivity.
  - split; [exact Hconfig | apply Hsame].
Defined.

Lemma hit_leaves_store_unchanged_witness :
  let out := cacheMiddleware CACHE_DURATION info_request
               (handler sample_parseInt Info answering_upstream info_request)
               (start 301000 warm) in
  cache out.2 = cache warm
  ∧ cache out.2 !! originalUrl info_request =
      Some {| data := league_payload; timestamp := 1000 |}.
Proof.
  destruct (hit_leaves_store_unchanged CACHE_DURATION info_request
              (handler sample_parseInt Info answering_upstream info_request)
              301000 warm {| data := league_payload; timestamp := 1000 |})
    as (Hsame & Hentry & _).
  - reflexivity.
  - vm_compute. reflexivity.
  - auto.
Defined.

(** ** Closed instances of the further properties *)

(** [toISOString] on the one time at which a sample history checks health. *)
Definition sample_toISOString (t : Z) : string :=
  if t =? 50 then "1970-01-01T00:00:00.050Z" else "".

Lemma exchange_touches_own_key_only_witness :
  let w1 := (cached_route sample_parseInt Info answering_upstream
               info_request_no_season (start 2000 warm)).2 in
  cache w1 !! originalUrl info_request = cache warm !! originalUrl info_request
  ∧ is_Some (cache w1 !! originalUrl info_request).
Proof.
  destruct (exchange_touches_own_key_only sample_parseInt Info
              answering_upstream info_request_no_season 2000 warm)
    as (Hframe & Hkept).
  - intros store. reflexivity.
  - split.
    + apply Hframe. vm_compute. discriminate.
    + apply Hkept. vm_compute. eexists. reflexivity.
Defined.


Lemma absent_or_empty_parameter_is_rejected_witness :
  sent (res (cached_route sample_parseInt Info answering_upstream
               info_request_empty_season (start 0 idle)).2) =
  [(400, bad_request_body Info)].
Proof.
  apply (absent_or_empty_parameter_is_rejected sample_parseInt Info
           answering_upstream info_request_empty_season 0 idle).
  - left. reflexivity.
  - exists "seasonId". split.
    + vm_compute. constructor.
    + right. reflexivity.
Defined.

Lemma nfl_games_ignores_the_caller_witness :
  client (upstream_call sample_parseInt NflGames games_request_private) =
    {| cfg_leagueId := Some 0; cfg_espnS2 := None; cfg_SWID := None |}
  ∧ cached_route sample_parseInt NflGames answering_upstream
      games_request_private (start 0 idle) =
    cached_route sample_parseInt NflGames answering_upstream games_request
      (start 0 idle).
Proof.
  apply (nfl_games_ignores_the_caller sample_parseInt answering_upstream
           games_request_private games_request (start 0 idle));
    reflexivity.
Defined.

Lemma rejection_is_replayed_with_status_200_witness :
  let w1 := (cached_route sample_parseInt Info answering_upstream
               info_request_no_season (start 0 idle)).2 in
  let out := cached_route sample_parseInt Info answering_upstream
               info_request_no_season (start 1000 w1) in
  sent (res w1) = [(400, bad_request_body Info)]
  ∧ sent (res out.2) = [(200, bad_request_body Info)]
  ∧ calls out.2 = calls idle
  ∧ cache out.2 = cache w1.
Proof.
  apply (rejection_is_replayed_with_status_200 sample_parseInt Info
           answering_upstream answering_upstream info_request_no_season
           info_request_no_season 0 1000 idle).
  - left. reflexivity.
  - reflexivity.
  - reflexivity.
  - vm_compute. reflexivity.
Defined.

Lemma history_store_holds_requested_addresses_witness :
  let history :=
    [Get Info answering_upstream info_request 0; Health 50;
     Get Info answering_upstream info_request_no_season 100;
     Get Info failing_upstream info_request_private 200] in
  (is_Some (cache (run sample_parseInt sample_toISOString idle history)
              !! originalUrl info_request_no_season) ->
   is_Some (cache idle !! originalUrl info_request_no_season)
   ∨ originalUrl info_request_no_season ∈ urls history)
  ∧ (size (cache (run sample_parseInt sample_toISOString idle history))
     ≤ size (cache idle) + gets history)%nat.
Proof.
  destruct (history_store_holds_requested_addresses sample_parseInt
              sample_toISOString
              [Get Info answering_upstream info_request 0; Health 50;
               Get Info answering_upstream info_request_no_season 100;
               Get Info failing_upstream info_request_private 200]
              idle)
    as (Hkeys & Hsize).
  - repeat constructor; intros store; reflexivity.
  - split; [apply Hkeys | exact Hsize].
Defined.

Lemma fresh_reads_never_reach_upstream_witness :
  let history :=
    [Get Info failing_upstream info_request 2000;
     Get Info failing_upstream info_request_private 300000] in
  cache (run sample_parseInt sample_toISOString warm history) = cache warm
  ∧ calls (run sample_parseInt sample_toISOString warm history) = calls warm
  ∧ console (run sample_parseInt sample_toISOString warm history) = console warm
  ∧ answers sample_parseInt sample_toISOString warm history =
      replicate 2 [(200, league_payload)].
Proof.
  apply (fresh_reads_never_reach_upstream sample_parseInt sample_toISOString
           "/api/league/100/info?seasonId=2024"
           {| data := league_payload; timestamp := 1000 |}
           [Get Info failing_upstream info_request 2000;
            Get Info failing_upstream info_request_private 300000]
           warm).
  - reflexivity.
  - repeat constructor.
Defined.

From Stdlib Require Import QArith Sorting.Sorted Sorting.Permutation.
From stdpp Require Import pretty.

Local Open Scope string_scope.
Local Open Scope Z_scope.

(** * The dashboard

    The browser side, [FantasyDashboard] in [public/app.js]: what it sends
    to the server, how it reads the answers, what it keeps in
    [localStorage], and how it picks and orders what it shows.  The markup
    the [display] methods build is not modelled; the lists they build it
    from are. *)

Module Dashboard.

(** ** Values *)

(** Truthiness of a value that came out of [JSON.parse], or [undefined]
    ([None]). *)
Definition js_truthy (v : option JSON) : bool :=
  match v with
  | None | Some JNull => false
  | Some (JBool b) => b
  | Some (JNumber n) => negb (n =? 0)
  | Some (JString s) => negb (String.eqb s "")
  | Some (JArray _) | Some (JObject _) => true
  end.

(** How an operation of the page can fail. *)
Inductive Failure : Type :=
| TypeError                     (* a property of [null] or [undefined] is
                                   read, or something that is no function
                                   is called *)
| Rejected (reason : string)    (* [fetch] or [response.json()] rejects *)
| ErrorOf (message : JSON).     (* [throw new Error(message)] *)

Fixpoint lookup_field (name : string) (fields : list (string * JSON))
  : option JSON :=
  match fields with
  | [] => None
  | (key, value) :: rest =>
      if String.eqb key name then Some value else lookup_field name rest
  end.

(** [v.name], for a [name] that no built-in prototype defines: reading it
    off [null] or [undefined] throws, an object gives its field, and any
    other value gives [undefined]. *)
Definition property (v : option JSON) (name : string)
  : Failure + option JSON :=
  match v with
  | None | Some JNull => inl TypeError
  | Some (JObject fields) => inr (lookup_field name fields)
  | Some _ => inr None
  end.

(** ** The state of the page *)

(** The fields of [this.cachedData]. *)
Record CachedData := mkCachedData {
  leagueInfo : option JSON;
  teams : option JSON;
  matchups : option JSON;
  freeAgents : option JSON;
  draft : option JSON
}.

(** The fields of a [FantasyDashboard]; [None] is [null]. *)
Record Dashboard := mkDashboard {
  currentLeagueId : option string;
  currentSeasonId : option string;
  currentScoringPeriodId : option string;
  isPrivate : bool;
  espnS2 : option string;
  swid : option string;
  cachedData : CachedData
}.

(** The elements of the document the methods below read or write: the
    [value] of the five inputs, the [checked] flag of the private-league
    box, three [style.display] values, the text of the error message, and
    the delays of the timers set with [setTimeout]. *)
Record Page := mkPage {
  leagueId_value : string;
  seasonId_value : string;
  scoringPeriodId_value : string;
  espnS2_value : string;
  swid_value : string;
  isPrivate_checked : bool;
  privateCookies_display : string;
  loadingOverlay_display : string;
  errorMessage_textContent : string;
  errorMessage_display : string;
  timers : list Z
}.

(** The object [saveConfig] stores under ['fantasyConfig'].  The model keeps
    the object rather than its JSON text: [JSON.parse] gives back what
    [JSON.stringify] was given, for an object of strings, [null]s and a
    boolean. *)
Record SavedConfig := mkSavedConfig {
  saved_leagueId : option string;
  saved_seasonId : option string;
  saved_scoringPeriodId : option string;
  saved_isPrivate : bool
}.

(** The browser around the dashboard: the page, the item of
    [localStorage], and the requests handed to [fetch] so far, each an
    address with its headers. *)
Record Browser := mkBrowser {
  page : Page;
  localStorage : option SavedConfig;
  fetches : list (string * gmap string string)
}.

Definition set_page (p : Page) (b : Browser) : Browser :=
  {| page := p; localStorage := localStorage b; fetches := fetches b |}.

(** [`${v}`] for a field of the dashboard. *)
Definition template (v : option string) : string :=
  match v with
  | Some s => s
  | None => "null"
  end.

(** [v || fallback] for a field of the saved configuration. *)
Definition or_else (v : option string) (fallback : string) : string :=
  match v with
  | Some s => if String.eqb s "" then fallback else s
  | None => fallback
  end.

(** ** Methods *)

(** [showLoading(show)] *)
Definition showLoading (show : bool) (b : Browser) : Browser :=
  let p := page b in
  set_page
    {| leagueId_value := leagueId_value p;
       seasonId_value := seasonId_value p;
       scoringPeriodId_value := scoringPeriodId_value p;
       espnS2_value := espnS2_value p; swid_value := swid_value p;
       isPrivate_checked := isPrivate_checked p;
       privateCookies_display := privateCookies_display p;
       loadingOverlay_display := if show then "flex" else "none";
       errorMessage_textContent := errorMessage_textContent p;
       errorMessage_display := errorMessage_display p;
       timers := timers p |} b.

(** [showError(message)]: the text is set and shown, and a timer of
    5000 ms is set that will hide it. *)
Definition showError (message : string) (b : Browser) : Browser :=
  let p := page b in
  set_page
    {| leagueId_value := leagueId_value p;
       seasonId_value := seasonId_value p;
       scoringPeriodId_value := scoringPeriodId_value p;
       espnS2_value := espnS2_value p; swid_value := swid_value p;
       isPrivate_checked := isPrivate_checked p;
       privateCookies_display := privateCookies_display p;
       loadingOverlay_display := loadingOverlay_display p;
       errorMessage_textContent := message;
       errorMessage_display := "block";
       timers := timers p ++ [5000] |} b.

(** [saveConfig()] *)
Definition saveConfig (d : Dashboard) (b : Browser) : Browser :=
  let config := {| saved_leagueId := currentLeagueId d;
                   saved_seasonId := currentSeasonId d;
                   saved_scoringPeriodId := currentScoringPeriodId d;
                   saved_isPrivate := isPrivate d |} in
  {| page := page b; localStorage := Some config; fetches := fetches b |}.

(** [loadSavedConfig()] *)
Definition loadSavedConfig (b : Browser) : Browser :=
  match localStorage b with
  | Some config =>
      let p := page b in
      set_page
        {| leagueId_value := or_else (saved_leagueId config) "";
           seasonId_value := or_else (saved_seasonId config) "2024";
           scoringPeriodId_value := or_else (saved_scoringPeriodId config) "";
           espnS2_value := espnS2_value p; swid_value := swid_value p;
           isPrivate_checked :=
             if saved_isPrivate config then true else isPrivate_checked p;
           privateCookies_display :=
             if saved_isPrivate config then "block"
             else privateCookies_display p;
           loadingOverlay_display := loadingOverlay_display p;
           errorMessage_textContent := errorMessage_textContent p;
           errorMessage_display := errorMessage_display p;
           timers := timers p |} b
  | None => b
  end.

(** [new FantasyDashboard()]: the fields are initialised and [init] runs
    [loadSavedConfig]; the listeners [init] installs are the transitions
    below. *)
Definition new_FantasyDashboard (b : Browser) : Dashboard * Browser :=
  ({| currentLeagueId := None; currentSeasonId := None;
      currentScoringPeriodId := None; isPrivate := false;
      espnS2 := None; swid := None;
      cachedData := {| leagueInfo := None; teams := None; matchups := None;
                       freeAgents := None; draft := None |} |},
   loadSavedConfig b).

(** The [change] listener of the private-league box, run after the user
    has set the box to [checked]. *)
Definition on_isPrivate_change (checked : bool) (d : Dashboard) (b : Browser)
  : Dashboard * Browser :=
  let p := page b in
  ({| currentLeagueId := currentLeagueId d;
      currentSeasonId := currentSeasonId d;
      currentScoringPeriodId := currentScoringPeriodId d;
      isPrivate := checked; espnS2 := espnS2 d; swid := swid d;
      cachedData := cachedData d |},
   set_page
     {| leagueId_value := leagueId_value p;
        seasonId_value := seasonId_value p;
        scoringPeriodId_value := scoringPeriodId_value p;
        espnS2_value := espnS2_value p; swid_value := swid_value p;
        isPrivate_checked := checked;
        privateCookies_display := if checked then "block" else "none";
        loadingOverlay_display := loadingOverlay_display p;
        errorMessage_textContent := errorMessage_textContent p;
        errorMessage_display := errorMessage_display p;
        timers := timers p |} b).

(** The headers [apiCall] builds. *)
Definition apiCall_headers (d : Dashboard) : gmap string string :=
  let headers := {[ "Content-Type" := "application/json" ]} in
  if isPrivate d && truthy (espnS2 d) && truthy (swid d)
  then <["SWID" := template (swid d)]>
         (<["espnS2" := template (espnS2 d)]> headers)
  else headers.

(** [apiCall(endpoint)] up to its first [await]: the request is handed to
    [fetch]. *)
Definition apiCall_send (d : Dashboard) (endpoint : string) (b : Browser)
  : Browser :=
  {| page := page b; localStorage := localStorage b;
     fetches := fetches b ++ [(endpoint, apiCall_headers d)] |}.

(** What [fetch] resolves to: the status, and what [response.json()]
    settles to. *)
Record HttpResponse := mkHttpResponse {
  status : Z;
  json : Failure + JSON
}.

(** [response.ok] *)
Definition ok (response : HttpResponse) : bool :=
  (200 <=? status response) && (status response <=? 299).

(** [apiCall(endpoint)] from the settling of [fetch] on: [arrived] is what
    [fetch] settled to. *)
Definition apiCall_receive (arrived : Failure + HttpResponse)
  : Failure + JSON :=
  match arrived with
  | inl failure => inl failure
  | inr response =>
      if negb (ok response)
      then match json response with
           | inl failure => inl failure
           | inr error =>
               match property (Some error) "message" with
               | inl failure => inl failure
               | inr message =>
                   inl (ErrorOf
                          match message with
                          | Some m =>
                              if js_truthy message then m
                              else JString "API request failed"
                          | None => JString "API request failed"
                          end)
               end
           end
      else json response
  end.

(** The addresses the three loaders of [loadAllData] ask for. *)
Definition loadLeagueInfo_url (d : Dashboard) : string :=
  "/api/league/" +:+ template (currentLeagueId d)
  +:+ "/info?seasonId=" +:+ template (currentSeasonId d).

Definition loadStandings_url (d : Dashboard) : string :=
  "/api/league/" +:+ template (currentLeagueId d)
  +:+ "/teams?seasonId=" +:+ template (currentSeasonId d)
  +:+ "&scoringPeriodId=" +:+ template (currentScoringPeriodId d).

Definition loadMatchups_url (d : Dashboard) : string :=
  "/api/league/" +:+ template (currentLeagueId d)
  +:+ "/boxscores?seasonId=" +:+ template (currentSeasonId d)
  +:+ "&matchupPeriodId=" +:+ template (currentScoringPeriodId d)
  +:+ "&scoringPeriodId=" +:+ template (currentScoringPeriodId d).

(** The three loaders of [Promise.all([...])], each run up to the [await]
    inside its [apiCall]. *)
Definition start_loaders (d : Dashboard) (b : Browser) : Browser :=
  apiCall_send d (loadMatchups_url d)
    (apiCall_send d (loadStandings_url d)
       (apiCall_send d (loadLeagueInfo_url d) b)).

(** [loadAllData()] up to [await Promise.all([...])]: the form is read and
    checked, the configuration saved, the overlay shown and the three
    requests sent. *)
Definition loadAllData (d : Dashboard) (b : Browser) : Dashboard * Browser :=
  let p := page b in
  let d1 := {| currentLeagueId := Some (leagueId_value p);
               currentSeasonId := Some (seasonId_value p);
               currentScoringPeriodId := Some (scoringPeriodId_value p);
               isPrivate := isPrivate d; espnS2 := espnS2 d; swid := swid d;
               cachedData := cachedData d |} in
  if negb (truthy (currentLeagueId d1)) || negb (truthy (currentSeasonId d1))
     || negb (truthy (currentScoringPeriodId d1))
  then (d1, showError
              "Please fill in all required fields (League ID, Season, and Week)"
              b)
  else
    let proceed (d2 : Dashboard) :=
      (d2, start_loaders d2 (showLoading true (saveConfig d2 b))) in
    if isPrivate d1
    then
      let d2 := {| currentLeagueId := currentLeagueId d1;
                   currentSeasonId := currentSeasonId d1;
                   currentScoringPeriodId := currentScoringPeriodId d1;
                   isPrivate := isPrivate d1;
                   espnS2 := Some (espnS2_value p);
                   swid := Some (swid_value p);
                   cachedData := cachedData d1 |} in
      if negb (truthy (espnS2 d2)) || negb (truthy (swid d2))
      then (d2, showError
                  "Private leagues require ESPN_S2 and SWID cookies" b)
      else proceed d2
    else proceed d1.

(** ** What the lists show *)

(** What a [display] method ends in: it starts the loader instead, or sets
    the markup built from [items]. *)
Inductive Display : Type :=
| LoadsInstead
| Renders (items : list JSON).

(** [player.player?.defaultPosition] *)
Definition position_of (player : JSON) : Failure + option JSON :=
  match property (Some player) "player" with
  | inl failure => inl failure
  | inr None | inr (Some JNull) => inr None
  | inr (Some inner) => property (Some inner) "defaultPosition"
  end.

(** The test of the [filter] call:
    [player.player?.defaultPosition === positionFilter]. *)
Definition at_position (positionFilter : string) (player : JSON)
  : Failure + bool :=
  match position_of player with
  | inl failure => inl failure
  | inr (Some (JString s)) => inr (String.eqb s positionFilter)
  | inr _ => inr false
  end.

(** [freeAgents.filter(...)]: the test runs on the elements in order and
    the first failure ends the call. *)
Fixpoint filter_players (positionFilter : string) (players : list JSON)
  : Failure + list JSON :=
  match players with
  | [] => inr []
  | player :: rest =>
      match at_position positionFilter player with
      | inl failure => inl failure
      | inr keep =>
          match filter_players positionFilter rest with
          | inl failure => inl failure
          | inr kept => inr (if keep then player :: kept else kept)
          end
      end
  end.

(** The [forEach] that builds the markup reads [player.player] of every
    element, which throws on [null]. *)
Definition renderable (player : JSON) : bool :=
  match player with
  | JNull => false
  | _ => true
  end.

(** [displayFreeAgents(freeAgents, positionFilter = 'all')]; a value that
    is no array has no [filter], or no [forEach] after [slice]. *)
Definition displayFreeAgents (freeAgents : option JSON)
    (positionFilter : option string) : Failure + Display :=
  let positionFilter := default "all" positionFilter in
  if negb (js_truthy freeAgents) then inr LoadsInstead
  else
    match freeAgents with
    | Some (JArray players) =>
        match (if negb (String.eqb positionFilter "all")
               then filter_players positionFilter players
               else inr players) with
        | inl failure => inl failure
        | inr filtered =>
            let shown := take 50 filtered in
            if forallb renderable shown then inr (Renders shown)
            else inl TypeError
        end
    | _ => inl TypeError
    end.

(** The fields of a team the standings comparator reads, for teams whose
    [wins] is an integer and whose [points] is a finite number; [team_id]
    tells teams apart. *)
Record Team := mkTeam {
  team_id : Z;
  team_wins : Z;
  team_points : Q
}.

(** The sign of what the comparator of [displayStandings] returns:
    [b.wins - a.wins] when the wins differ, [b.points - a.points]
    otherwise. *)
Definition compareTeams (a b : Team) : comparison :=
  if negb (team_wins b =? team_wins a)
  then team_wins b ?= team_wins a
  else (team_points b ?= team_points a)%Q.

(** [Array.prototype.sort] with a comparator: a stable sort, here by
    insertion from the right. *)
Fixpoint sort_insert {A} (compare : A -> A -> comparison) (x : A)
    (sorted : list A) : list A :=
  match sorted with
  | [] => [x]
  | y :: rest =>
      match compare x y with
      | Gt => y :: sort_insert compare x rest
      | _ => x :: y :: rest
      end
  end.

Definition sort {A} (compare : A -> A -> comparison) (items : list A)
  : list A :=
  foldr (sort_insert compare) [] items.

(** [const sortedTeams = [...teams].sort(...)] *)
Definition sortedTeams (teams : list Team) : list Team :=
  sort compareTeams teams.

(** The order of the standings: more wins first, and among equal wins
    more points first. *)
Definition ranks_no_lower (a b : Team) : Prop :=
  team_wins b < team_wins a
  ∨ (team_wins a = team_wins b ∧ (team_points b <= team_points a)%Q).

(** [getStreakDisplay(streak)] for a streak that is [undefined] ([None]) or
    an integer; [pretty n] is what a template literal prints for an integer
    of at most [MAX_SAFE_INTEGER] in absolute value. *)
Definition getStreakDisplay (streak : option Z) : string :=
  match streak with
  | None => "-"
  | Some n =>
      if n =? 0 then "-"
      else if 0 <? n then "W" +:+ pretty n
      else "L" +:+ pretty (Z.abs n)
  end.

(** ** Vocabulary of the statements *)

(** [Number.MAX_SAFE_INTEGER] *)
Definition MAX_SAFE_INTEGER : Z := 2 ^ 53 - 1.

(** A player entry of the free-agent list at [position]. *)
Definition sample_player (name position : string) : JSON :=
  JObject [("player", JObject [("fullName", JString name);
                               ("defaultPosition", JString position)]);
           ("projectedPoints", JNumber 12)].

(** Two quarterbacks around a running back. *)
Definition sample_players : list JSON :=
  [sample_player "A" "QB"; sample_player "B" "RB"; sample_player "C" "QB"].

(** The form is filled in: the three fields are non-empty, and so are the
    two cookies when the dashboard has its private flag set. *)
Definition form_complete (d : Dashboard) (p : Page) : Prop :=
  leagueId_value p ≠ "" ∧ seasonId_value p ≠ ""
  ∧ scoringPeriodId_value p ≠ ""
  ∧ (isPrivate d = true -> espnS2_value p ≠ "" ∧ swid_value p ≠ "").

(** The headers of a request without credentials. *)
Definition plain_headers : gmap string string :=
  {[ "Content-Type" := "application/json" ]}.

(** A page with the form filled in for league 100, season 2024, week 8,
    and no cookies. *)
Definition sample_page : Page :=
  {| leagueId_value := "100"; seasonId_value := "2024";
     scoringPeriodId_value := "8"; espnS2_value := ""; swid_value := "";
     isPrivate_checked := false; privateCookies_display := "none";
     loadingOverlay_display := "none"; errorMessage_textContent := "";
     errorMessage_display := "none"; timers := [] |}.

(** The same page with the season left empty. *)
Definition sample_page_no_season : Page :=
  {| leagueId_value := "100"; seasonId_value := "";
     scoringPeriodId_value := "8"; espnS2_value := ""; swid_value := "";
     isPrivate_checked := false; privateCookies_display := "none";
     loadingOverlay_display := "none"; errorMessage_textContent := "";
     errorMessage_display := "none"; timers := [] |}.

Definition sample_browser : Browser :=
  {| page := sample_page; localStorage := None; fetches := [] |}.

Definition sample_browser_no_season : Browser :=
  {| page := sample_page_no_season; localStorage := None; fetches := [] |}.

(** A browser whose storage holds a configuration saved by a private
    dashboard. *)
Definition sample_browser_saved_private : Browser :=
  {| page := sample_page_no_season;
     localStorage := Some {| saved_leagueId := Some "100";
                             saved_seasonId := Some "2024";
                             saved_scoringPeriodId := Some "8";
                             saved_isPrivate := true |};
     fetches := [] |}.

(** The form of a private league, with both cookies typed in and the box
    ticked. *)
Definition sample_page_private : Page :=
  {| leagueId_value := "100"; seasonId_value := "2024";
     scoringPeriodId_value := "8"; espnS2_value := "AEB1";
     swid_value := "{7C}";
     isPrivate_checked := true; privateCookies_display := "block";
     loadingOverlay_display := "none"; errorMessage_textContent := "";
     errorMessage_display := "none"; timers := [] |}.

Definition sample_browser_private : Browser :=
  {| page := sample_page_private; localStorage := None; fetches := [] |}.

(** A dashboard whose private flag the listener has set. *)
Definition sample_dashboard_private : Dashboard :=
  {| currentLeagueId := None; currentSeasonId := None;
     currentScoringPeriodId := None; isPrivate := true;
     espnS2 := None; swid := None;
     cachedData := {| leagueInfo := None; teams := None; matchups := None;
                      freeAgents := None; draft := None |} |}.

(** A dashboard as the constructor leaves it. *)
Definition sample_dashboard : Dashboard :=
  {| currentLeagueId := None; currentSeasonId := None;
     currentScoringPeriodId := None; isPrivate := false;
     espnS2 := None; swid := None;
     cachedData := {| leagueInfo := None; teams := None; matchups := None;
                      freeAgents := None; draft := None |} |}.

(** ** Properties *)

Lemma truthy_Some (s : string) : truthy (Some s) = true ↔ s ≠ "".
Proof.
  cbn. rewrite negb_true_iff. split.
  - intros Hne ->. discriminate.
  - apply String.eqb_neq.
Qed.

Lemma truthy_Some_false (s : string) : truthy (Some s) = false ↔ s = "".
Proof. cbn. rewrite negb_false_iff. apply String.eqb_eq. Qed.

(** X11.  Every request of the dashboard carries the content type, and
    either both credential headers, equal to the two non-empty cookies of a
    dashboard whose private flag is set, or neither of them: one
    credential alone is never sent, and none is sent while the flag is
    off, whatever cookies the dashboard still holds. *)
Theorem apiCall_sends_both_credentials_or_none (d : Dashboard) :
  let sent_headers := apiCall_headers d in
  sent_headers !! "Content-Type" = Some "application/json"
  ∧ ((sent_headers !! "espnS2" = None ∧ sent_headers !! "SWID" = None)
     ∨ (isPrivate d = true
        ∧ ∃ a b, a ≠ "" ∧ b ≠ ""
                 ∧ espnS2 d = Some a ∧ swid d = Some b
                 ∧ sent_headers !! "espnS2" = Some a
                 ∧ sent_headers !! "SWID" = Some b)).
Proof.
  cbn zeta. unfold apiCall_headers.
  destruct (isPrivate d); cbn [andb].
  - destruct (truthy (espnS2 d)) eqn:Ha; cbn [andb].
    + destruct (truthy (swid d)) eqn:Hb.
      * apply truthy_spec in Ha as (a & Ha & Hane).
        apply truthy_spec in Hb as (b & Hb & Hbne).
        rewrite Ha, Hb. cbn [template]. split.
        -- rewrite !lookup_insert_ne by done. reflexivity.
        -- right. split; [reflexivity |]. exists a, b.
           rewrite lookup_insert_ne, !lookup_insert_eq by done. auto 10.
      * split; [reflexivity | left; split; reflexivity].
    + split; [reflexivity | left; split; reflexivity].
  - split; [reflexivity | left; split; reflexivity].
Qed.

(** X12.  When the form is not filled in, [loadAllData] sends no request
    and saves nothing: it shows an error for five seconds and leaves the
    loading overlay as it was. *)
Theorem loadAllData_incomplete_form_sends_nothing (d : Dashboard)
    (b : Browser) :
  ¬ form_complete d (page b) ->
  let after := (loadAllData d b).2 in
  fetches after = fetches b
  ∧ localStorage after = localStorage b
  ∧ errorMessage_display (page after) = "block"
  ∧ timers (page after) = (timers (page b) ++ [5000])%list
  ∧ loadingOverlay_display (page after) = loadingOverlay_display (page b).
Proof.
  intros Hincomplete. cbn zeta. unfold loadAllData. cbn [currentLeagueId
    currentSeasonId currentScoringPeriodId isPrivate espnS2 swid].
  destruct (truthy (Some (leagueId_value (page b)))) eqn:H1;
    [| cbn; auto].
  destruct (truthy (Some (seasonId_value (page b)))) eqn:H2;
    [| cbn; auto].
  destruct (truthy (Some (scoringPeriodId_value (page b)))) eqn:H3;
    [| cbn; auto].
  cbn [negb orb].
  apply truthy_Some in H1, H2, H3.
  destruct (isPrivate d) eqn:Hprivate.
  - destruct (truthy (Some (espnS2_value (page b)))) eqn:H4;
      [| cbn; auto].
    destruct (truthy (Some (swid_value (page b)))) eqn:H5;
      [| cbn; auto].
    apply truthy_Some in H4, H5.
    destruct Hincomplete. unfold form_complete. auto.
  - destruct Hincomplete. unfold form_complete. rewrite Hprivate.
    repeat split; auto; discriminate.
Qed.

(** X13.  When the form is filled in, [loadAllData] saves the three fields
    and the private flag, shows the loading overlay, and sends exactly
    three requests, for league info, teams and box scores in that order,
    all with the same headers; these carry the two cookies typed into the
    form when the private flag is set and no credential otherwise. *)
Theorem loadAllData_complete_form_sends_three (d : Dashboard) (b : Browser) :
  form_complete d (page b) ->
  let d' := (loadAllData d b).1 in
  let after := (loadAllData d b).2 in
  let sent_headers := apiCall_headers d' in
  fetches after =
    (fetches b ++ [(loadLeagueInfo_url d', sent_headers);
                   (loadStandings_url d', sent_headers);
                   (loadMatchups_url d', sent_headers)])%list
  ∧ localStorage after =
      Some {| saved_leagueId := Some (leagueId_value (page b));
              saved_seasonId := Some (seasonId_value (page b));
              saved_scoringPeriodId := Some (scoringPeriodId_value (page b));
              saved_isPrivate := isPrivate d |}
  ∧ loadingOverlay_display (page after) = "flex"
  ∧ sent_headers !! "espnS2" =
      (if isPrivate d then Some (espnS2_value (page b)) else None)
  ∧ sent_headers !! "SWID" =
      (if isPrivate d then Some (swid_value (page b)) else None).
Proof.
  intros (H1 & H2 & H3 & Hcookies). cbn zeta. unfold loadAllData.
  cbn [currentLeagueId currentSeasonId currentScoringPeriodId isPrivate
       espnS2 swid].
  apply truthy_Some in H1, H2, H3. rewrite H1, H2, H3. cbn [negb orb].
  destruct (isPrivate d) eqn:Hprivate.
  - destruct (Hcookies eq_refl) as (H4 & H5).
    apply truthy_Some in H4, H5. rewrite H4, H5. cbn [negb orb fst snd].
    unfold start_loaders, apiCall_send, apiCall_headers. cbn.
    rewrite <- !app_assoc. cbn.
    unfold truthy in H4, H5. rewrite H4, H5. cbn.
    rewrite lookup_insert_ne, !lookup_insert_eq by done. auto.
  - cbn [fst snd].
    unfold start_loaders, apiCall_send, apiCall_headers. cbn.
    rewrite <- !app_assoc. cbn. auto.
Qed.

(** What a filled-in form leaves in the storage. *)
Lemma loadAllData_saves_the_form (d : Dashboard)
    (b : Browser) :
  form_complete d (page b) ->
  localStorage (loadAllData d b).2 =
    Some {| saved_leagueId := Some (leagueId_value (page b));
            saved_seasonId := Some (seasonId_value (page b));
            saved_scoringPeriodId := Some (scoringPeriodId_value (page b));
            saved_isPrivate := isPrivate d |}.
Proof.
  intros (H1 & H2 & H3 & Hcookies). unfold loadAllData.
  cbn [currentLeagueId currentSeasonId currentScoringPeriodId isPrivate
       espnS2 swid].
  apply truthy_Some in H1, H2, H3. rewrite H1, H2, H3. cbn [negb orb].
  destruct (isPrivate d) eqn:Hprivate.
  - destruct (Hcookies eq_refl) as (H4 & H5).
    apply truthy_Some in H4, H5. rewrite H4, H5. reflexivity.
  - reflexivity.
Qed.

Lemma or_else_non_empty (s fallback : string) :
  s ≠ "" -> or_else (Some s) fallback = s.
Proof.
  intros Hne. cbn. apply String.eqb_neq in Hne. rewrite Hne. reflexivity.
Qed.

(** X14.  What [loadAllData] saved comes back on the next visit: a new
    dashboard puts the three fields into the form as they were typed and
    ticks the private box if the flag was saved.  The cookies were not
    saved and stay as the page has them, and the new dashboard starts with
    its own private flag off. *)
Theorem saved_form_is_restored (d : Dashboard) (b next_visit : Browser) :
  form_complete d (page b) ->
  localStorage next_visit = localStorage (loadAllData d b).2 ->
  let restored := new_FantasyDashboard next_visit in
  leagueId_value (page restored.2) = leagueId_value (page b)
  ∧ seasonId_value (page restored.2) = seasonId_value (page b)
  ∧ scoringPeriodId_value (page restored.2) = scoringPeriodId_value (page b)
  ∧ isPrivate_checked (page restored.2) =
      (isPrivate d || isPrivate_checked (page next_visit))
  ∧ espnS2_value (page restored.2) = espnS2_value (page next_visit)
  ∧ swid_value (page restored.2) = swid_value (page next_visit)
  ∧ isPrivate restored.1 = false.
Proof.
  intros Hcomplete Hstorage. cbn zeta.
  rewrite (loadAllData_saves_the_form d b Hcomplete) in Hstorage.
  destruct Hcomplete as (H1 & H2 & H3 & _).
  unfold new_FantasyDashboard, loadSavedConfig. rewrite Hstorage.
  cbn -[or_else]. rewrite !or_else_non_empty by assumption.
  destruct (isPrivate d); auto 10.
Qed.

(** X15.  A saved private flag ticks the box on the next visit without
    setting the flag of the new dashboard: until the box is changed by
    hand, [loadAllData] does not ask for the cookies and sends its three
    requests without credentials. *)
Theorem restored_private_box_sends_no_credentials (next_visit : Browser)
    (config : SavedConfig) (later : Browser) :
  localStorage next_visit = Some config ->
  saved_isPrivate config = true ->
  leagueId_value (page later) ≠ "" ->
  seasonId_value (page later) ≠ "" ->
  scoringPeriodId_value (page later) ≠ "" ->
  let restored := new_FantasyDashboard next_visit in
  let d' := (loadAllData restored.1 later).1 in
  isPrivate_checked (page restored.2) = true
  ∧ privateCookies_display (page restored.2) = "block"
  ∧ isPrivate restored.1 = false
  ∧ fetches (loadAllData restored.1 later).2 =
      (fetches later ++ [(loadLeagueInfo_url d', plain_headers);
                         (loadStandings_url d', plain_headers);
                         (loadMatchups_url d', plain_headers)])%list.
Proof.
  intros Hstorage Hflag H1 H2 H3. cbn zeta.
  unfold new_FantasyDashboard, loadSavedConfig. rewrite Hstorage, Hflag.
  cbn [fst snd page set_page isPrivate_checked privateCookies_display
       isPrivate].
  do 3 (split; [reflexivity |]).
  unfold loadAllData.
  cbn [currentLeagueId currentSeasonId currentScoringPeriodId isPrivate
       espnS2 swid].
  apply truthy_Some in H1, H2, H3. rewrite H1, H2, H3. cbn [negb orb].
  cbn [fst snd]. unfold start_loaders, apiCall_send, apiCall_headers. cbn.
  rewrite <- !app_assoc. reflexivity.
Qed.

(** X23.  Unticking the private box stops the credentials: after a load
    that sent the two cookies, the dashboard still holds them, but once
    the box has been unticked the next load sends its three requests
    without credential headers. *)
Theorem unticking_private_box_stops_credentials (d : Dashboard)
    (b later : Browser) :
  isPrivate d = true ->
  form_complete d (page b) ->
  leagueId_value (page later) ≠ "" ->
  seasonId_value (page later) ≠ "" ->
  scoringPeriodId_value (page later) ≠ "" ->
  let d1 := (loadAllData d b).1 in
  let unticked := on_isPrivate_change false d1 later in
  let d2 := (loadAllData unticked.1 unticked.2).1 in
  apiCall_headers d1 !! "espnS2" = Some (espnS2_value (page b))
  ∧ espnS2 d2 = Some (espnS2_value (page b))
  ∧ swid d2 = Some (swid_value (page b))
  ∧ fetches (loadAllData unticked.1 unticked.2).2 =
      (fetches later ++ [(loadLeagueInfo_url d2, plain_headers);
                         (loadStandings_url d2, plain_headers);
                         (loadMatchups_url d2, plain_headers)])%list.
Proof.
  intros Hprivate (H1 & H2 & H3 & Hcookies) H1' H2' H3'. cbn zeta.
  destruct (Hcookies Hprivate) as (H4 & H5).
  apply truthy_Some in H1, H2, H3, H4, H5, H1', H2', H3'.
  assert (loadAllData d b =
          ({| currentLeagueId := Some (leagueId_value (page b));
              currentSeasonId := Some (seasonId_value (page b));
              currentScoringPeriodId := Some (scoringPeriodId_value (page b));
              isPrivate := true;
              espnS2 := Some (espnS2_value (page b));
              swid := Some (swid_value (page b));
              cachedData := cachedData d |},
           (loadAllData d b).2)) as Hfirst.
  { unfold loadAllData.
    cbn [currentLeagueId currentSeasonId currentScoringPeriodId isPrivate
         espnS2 swid cachedData].
    rewrite H1, H2, H3, Hprivate. cbn [negb orb]. rewrite H4, H5.
    reflexivity. }
  rewrite Hfirst. cbn [fst]. split.
  - unfold apiCall_headers. cbn [isPrivate espnS2 swid].
    rewrite H4, H5. cbn [andb template].
    rewrite lookup_insert_ne, lookup_insert_eq by done. reflexivity.
  - unfold on_isPrivate_change, loadAllData.
    cbn [fst snd page set_page leagueId_value seasonId_value
         scoringPeriodId_value currentLeagueId currentSeasonId
         currentScoringPeriodId isPrivate espnS2 swid cachedData].
    rewrite H1', H2', H3'. cbn [negb orb fst snd espnS2 swid].
    do 2 (split; [reflexivity |]).
    unfold start_loaders, apiCall_send, apiCall_headers. cbn.
    rewrite <- !app_assoc. reflexivity.
Qed.

(** *** The free agents shown *)

Lemma at_position_true (positionFilter : string) (player : JSON) :
  at_position positionFilter player = inr true ↔
  position_of player = inr (Some (JString positionFilter)).
Proof.
  unfold at_position.
  destruct (position_of player) as [failure | [[| | | s | |] |]];
    try (split; intros [=]; fail).
  split.
  - intros [= Heq]. apply String.eqb_eq in Heq. by subst.
  - intros [= ->]. by rewrite String.eqb_refl.
Qed.

Lemma filter_players_spec (positionFilter : string)
    (players kept : list JSON) :
  filter_players positionFilter players = inr kept ->
  kept `sublist_of` players
  ∧ (∀ p, p ∈ kept -> at_position positionFilter p = inr true)
  ∧ (∀ p, p ∈ players -> at_position positionFilter p = inr true ->
          p ∈ kept).
Proof.
  revert kept. induction players as [| player rest IH]; intros kept; cbn.
  - intros [= <-]. split; [constructor |]. split; intros p Hp; [| done].
    by apply elem_of_nil in Hp.
  - destruct (at_position positionFilter player) as [| keep] eqn:Hat;
      [discriminate |].
    destruct (filter_players positionFilter rest) as [| kept'];
      [discriminate |].
    destruct (IH kept' eq_refl) as (Hsub & Hall & Hfound).
    intros [= <-]. destruct keep.
    + split; [by constructor |]. split.
      * intros p [-> | Hp]%elem_of_cons; auto.
      * intros p [-> | Hp]%elem_of_cons Hp'; [left | right; auto].
    + split; [by constructor |]. split; [exact Hall |].
      intros p [-> | Hp]%elem_of_cons Hp'; [congruence | auto].
Qed.

Lemma renderable_spec (shown : list JSON) :
  forallb renderable shown = true ↔ ∀ p, p ∈ shown -> p ≠ JNull.
Proof.
  induction shown as [| player rest IH]; cbn.
  - split; [intros _ p Hp; by apply elem_of_nil in Hp | reflexivity].
  - rewrite andb_true_iff, IH. split.
    + intros (Hplayer & Hrest) p [-> | Hp]%elem_of_cons; [| auto].
      intros ->. discriminate.
    + intros Hall. split.
      * destruct player; try reflexivity.
        destruct (Hall JNull); [constructor | reflexivity].
      * intros p Hp. apply Hall. by right.
Qed.

(** X16.  When [displayFreeAgents] renders a list for an array of players,
    the list has at most 50 entries, none of them [null], taken from the
    array in the array's order, never re-sorted.  Without a position
    filter it is the first 50 players; with one, every entry is at that
    position, and a player at that position is left out only when 50
    were found. *)
Theorem displayFreeAgents_shows_first_fifty_matches (players : list JSON)
    (positionFilter : option string) (shown : list JSON) :
  displayFreeAgents (Some (JArray players)) positionFilter
  = inr (Renders shown) ->
  (length shown ≤ 50)%nat
  ∧ shown `sublist_of` players
  ∧ (∀ p, p ∈ shown -> p ≠ JNull)
  ∧ (positionFilter = None ∨ positionFilter = Some "all" ->
     shown = take 50 players)
  ∧ (∀ f, positionFilter = Some f -> f ≠ "all" ->
       (∀ p, p ∈ shown -> position_of p = inr (Some (JString f)))
       ∧ ((length shown < 50)%nat ->
          ∀ p, p ∈ players ->
               position_of p = inr (Some (JString f)) -> p ∈ shown)).
Proof.
  unfold displayFreeAgents. cbn [js_truthy negb].
  set (f := default "all" positionFilter).
  destruct (String.eqb f "all") eqn:Hall; cbn [negb].
  - apply String.eqb_eq in Hall.
    destruct (forallb renderable (take 50 players)) eqn:Hrender;
      [| discriminate].
    intros [= <-]. split; [rewrite length_take; lia |].
    split; [apply sublist_take |].
    split; [by apply renderable_spec |]. split; [reflexivity |].
    intros f' -> Hne. by destruct Hne.
  - apply String.eqb_neq in Hall.
    destruct (filter_players f players) as [| kept] eqn:Hfilter;
      [discriminate |].
    destruct (forallb renderable (take 50 kept)) eqn:Hrender;
      [| discriminate].
    intros [= <-].
    destruct (filter_players_spec _ _ _ Hfilter) as (Hsub & Hkept & Hfound).
    split; [rewrite length_take; lia |].
    split; [etrans; [apply sublist_take | exact Hsub] |].
    split; [by apply renderable_spec |]. split.
    { intros [-> | ->]; by destruct Hall. }
    intros f' -> _. cbn in f. subst f. split.
    + intros p Hp. apply at_position_true, Hkept.
      eapply elem_of_sublist; [exact Hp | apply sublist_take].
    + rewrite length_take. intros Hshort p Hp Hposition.
      rewrite take_ge by lia. apply Hfound; [exact Hp |].
      by apply at_position_true.
Qed.

(** X17.  One [null] among the players makes [displayFreeAgents] throw
    instead of rendering: under a position filter wherever it stands in
    the array, and without a filter when it is among the first 50. *)
Theorem displayFreeAgents_throws_on_null_player (players : list JSON)
    (positionFilter : option string) :
  (match positionFilter with
   | Some f => f ≠ "all" ∧ JNull ∈ players
   | None => False
   end
   ∨ ((positionFilter = None ∨ positionFilter = Some "all")
      ∧ JNull ∈ take 50 players)) ->
  displayFreeAgents (Some (JArray players)) positionFilter = inl TypeError.
Proof.
  unfold displayFreeAgents. cbv zeta. cbn [js_truthy negb].
  intros [Hfiltered | (Hall & Hnull)].
  - destruct positionFilter as [f |]; [| done].
    destruct Hfiltered as (Hne & Hnull).
    change (default "all" (Some f)) with f.
    apply String.eqb_neq in Hne. rewrite Hne. cbn [negb].
    assert (filter_players f players = inl TypeError) as ->; [| done].
    induction players as [| player rest IH];
      [by apply elem_of_nil in Hnull |].
    apply elem_of_cons in Hnull as [<- | Hnull]; [reflexivity |].
    cbn. destruct (at_position f player) as [[] |] eqn:Hat;
      try reflexivity.
    + unfold at_position, position_of, property in Hat.
      repeat case_match; simplify_eq.
    + unfold at_position, position_of, property in Hat.
      repeat case_match; simplify_eq.
    + by rewrite IH.
  - assert (String.eqb (default "all" positionFilter) "all" = true) as ->.
    { destruct Hall as [-> | ->]; reflexivity. }
    cbn [negb].
    destruct (forallb renderable (take 50 players)) eqn:Hrender;
      [| reflexivity].
    by destruct (proj1 (renderable_spec _) Hrender JNull Hnull).
Qed.

(** *** The standings *)

Lemma sort_insert_permutation {A} (compare : A -> A -> comparison) (x : A)
    (sorted : list A) :
  Permutation (sort_insert compare x sorted) (x :: sorted).
Proof.
  induction sorted as [| y rest IH]; cbn; [reflexivity |].
  destruct (compare x y); try reflexivity.
  rewrite IH. apply perm_swap.
Qed.

Lemma sort_permutation {A} (compare : A -> A -> comparison)
    (items : list A) :
  Permutation (sort compare items) items.
Proof.
  induction items as [| x rest IH]; cbn; [reflexivity |].
  rewrite sort_insert_permutation. by constructor.
Qed.

Lemma compareTeams_not_Gt (a b : Team) :
  compareTeams a b ≠ Gt -> ranks_no_lower a b.
Proof.
  unfold compareTeams, ranks_no_lower.
  destruct (team_wins b =? team_wins a) eqn:Hwins; cbn [negb].
  - apply Z.eqb_eq in Hwins. intros Hpoints. right.
    split; [congruence |]. by apply Qle_alt.
  - apply Z.eqb_neq in Hwins. intros Hle. left.
    assert (team_wins b ≤ team_wins a) as Hle' by exact Hle. lia.
Qed.

Lemma compareTeams_Gt (a b : Team) :
  compareTeams a b = Gt -> ranks_no_lower b a.
Proof.
  unfold compareTeams, ranks_no_lower.
  destruct (team_wins b =? team_wins a) eqn:Hwins; cbn [negb].
  - apply Z.eqb_eq in Hwins. intros Hpoints. right.
    split; [congruence |]. apply Qlt_le_weak, Qgt_alt. exact Hpoints.
  - intros Hgt. left. apply Z.compare_gt_iff. exact Hgt.
Qed.

Lemma ranks_no_lower_trans (a b c : Team) :
  ranks_no_lower a b -> ranks_no_lower b c -> ranks_no_lower a c.
Proof.
  unfold ranks_no_lower.
  intros [Hab | (Hab & Hpab)] [Hbc | (Hbc & Hpbc)].
  - left. lia.
  - left. lia.
  - left. lia.
  - right. split; [congruence |]. by eapply Qle_trans.
Qed.

Lemma sort_insert_sorted (x : Team) (sorted : list Team) :
  StronglySorted ranks_no_lower sorted ->
  StronglySorted ranks_no_lower (sort_insert compareTeams x sorted).
Proof.
  induction 1 as [| y rest Hrest IH Hy]; cbn.
  - repeat constructor.
  - destruct (compareTeams x y) eqn:Hcompare.
    + assert (ranks_no_lower x y) as Hxy
        by (apply compareTeams_not_Gt; congruence).
      constructor; [by constructor |]. constructor; [exact Hxy |].
      eapply Forall_impl; [exact Hy |].
      intros z Hyz. by eapply ranks_no_lower_trans.
    + assert (ranks_no_lower x y) as Hxy
        by (apply compareTeams_not_Gt; congruence).
      constructor; [by constructor |]. constructor; [exact Hxy |].
      eapply Forall_impl; [exact Hy |].
      intros z Hyz. by eapply ranks_no_lower_trans.
    + constructor; [exact IH |].
      rewrite sort_insert_permutation. constructor; [| exact Hy].
      by apply compareTeams_Gt.
Qed.

(** X18.  The standings list every team exactly once, ordered by wins
    from most to fewest, and among teams with the same wins by points from
    most to fewest. *)
Theorem sortedTeams_ranks_by_wins_then_points (teams_in : list Team) :
  Permutation (sortedTeams teams_in) teams_in
  ∧ StronglySorted ranks_no_lower (sortedTeams teams_in).
Proof.
  split; [apply sort_permutation |].
  unfold sortedTeams, sort.
  induction teams_in as [| x rest IH]; cbn; [constructor |].
  by apply sort_insert_sorted.
Qed.

(** *** The streak column *)

(** X19.  [getStreakDisplay] shows a dash for a missing streak and for
    0; any other streak that is a safe integer shows, never as a dash, as
    [W] or [L] followed by its length without a sign, and two different
    streaks never show the same text. *)
Theorem getStreakDisplay_tells_streaks_apart (n m : Z) :
  Z.abs n ≤ MAX_SAFE_INTEGER -> Z.abs m ≤ MAX_SAFE_INTEGER ->
  n ≠ 0 -> m ≠ 0 ->
  getStreakDisplay (Some n) ≠ "-"
  ∧ getStreakDisplay (Some n) =
      (if 0 <? n then "W" else "L") +:+ pretty (Z.abs n)
  ∧ (getStreakDisplay (Some n) = getStreakDisplay (Some m) -> n = m)
  ∧ getStreakDisplay None = "-"
  ∧ getStreakDisplay (Some 0) = "-".
Proof.
  intros _ _ Hn Hm. unfold getStreakDisplay.
  apply Z.eqb_neq in Hn as Hn', Hm as Hm'. rewrite Hn', Hm'.
  split; [destruct (0 <? n); discriminate |].
  split.
  { destruct (0 <? n) eqn:Hpos; [| reflexivity].
    apply Z.ltb_lt in Hpos. by rewrite Z.abs_eq by lia. }
  split; [| split; reflexivity].
  destruct (0 <? n) eqn:Hnpos, (0 <? m) eqn:Hmpos;
    try discriminate; intros [= Heq].
  - change (pretty n = pretty m) in Heq. by apply pretty_Z_inj.
  - change (pretty (Z.abs n) = pretty (Z.abs m)) in Heq.
    apply pretty_Z_inj in Heq.
    apply Z.ltb_ge in Hnpos, Hmpos. lia.
Qed.

(** ** Closed instances *)

Lemma loadAllData_incomplete_form_sends_nothing_witness :
  let after := (loadAllData sample_dashboard sample_browser_no_season).2 in
  fetches after = fetches sample_browser_no_season
  ∧ localStorage after = localStorage sample_browser_no_season
  ∧ errorMessage_display (page after) = "block"
  ∧ timers (page after) =
      (timers (page sample_browser_no_season) ++ [5000])%list
  ∧ loadingOverlay_display (page after) =
      loadingOverlay_display (page sample_browser_no_season).
Proof.
  apply (loadAllData_incomplete_form_sends_nothing sample_dashboard
           sample_browser_no_season).
  intros (_ & Hseason & _). apply Hseason. reflexivity.
Defined.

Lemma loadAllData_complete_form_sends_three_witness :
  fetches (loadAllData sample_dashboard sample_browser).2 =
    [("/api/league/100/info?seasonId=2024", plain_headers);
     ("/api/league/100/teams?seasonId=2024&scoringPeriodId=8",
      plain_headers);
     ("/api/league/100/boxscores?seasonId=2024&matchupPeriodId=8&scoringPeriodId=8",
      plain_headers)]
  ∧ loadingOverlay_display (page (loadAllData sample_dashboard
                                    sample_browser).2) = "flex".
Proof.
  destruct (loadAllData_complete_form_sends_three sample_dashboard
              sample_browser)
    as (Hfetches & _ & Hoverlay & _).
  - repeat split; try discriminate.
  - split; [exact Hfetches | exact Hoverlay].
Defined.

Lemma saved_form_is_restored_witness :
  let restored :=
    new_FantasyDashboard
      {| page := sample_page_no_season;
         localStorage :=
           localStorage (loadAllData sample_dashboard sample_browser).2;
         fetches := [] |} in
  leagueId_value (page restored.2) = "100"
  ∧ seasonId_value (page restored.2) = "2024"
  ∧ scoringPeriodId_value (page restored.2) = "8"
  ∧ isPrivate restored.1 = false.
Proof.
  destruct (saved_form_is_restored sample_dashboard sample_browser
              {| page := sample_page_no_season;
                 localStorage :=
                   localStorage
                     (loadAllData sample_dashboard sample_browser).2;
                 fetches := [] |})
    as (H1 & H2 & H3 & _ & _ & _ & Hflag).
  - repeat split; try discriminate.
  - reflexivity.
  - auto.
Defined.

Lemma restored_private_box_sends_no_credentials_witness :
  let restored := new_FantasyDashboard sample_browser_saved_private in
  isPrivate_checked (page restored.2) = true
  ∧ isPrivate restored.1 = false
  ∧ fetches (loadAllData restored.1 restored.2).2 =
      [("/api/league/100/info?seasonId=2024", plain_headers);
       ("/api/league/100/teams?seasonId=2024&scoringPeriodId=8",
        plain_headers);
       ("/api/league/100/boxscores?seasonId=2024&matchupPeriodId=8&scoringPeriodId=8",
        plain_headers)].
Proof.
  destruct (restored_private_box_sends_no_credentials
              sample_browser_saved_private
              {| saved_leagueId := Some "100"; saved_seasonId := Some "2024";
                 saved_scoringPeriodId := Some "8"; saved_isPrivate := true |}
              (new_FantasyDashboard sample_browser_saved_private).2)
    as (Hbox & _ & Hflag & Hfetches);
    try reflexivity; try discriminate.
  split; [exact Hbox | split; [exact Hflag | exact Hfetches]].
Defined.

Lemma unticking_private_box_stops_credentials_witness :
  let d1 := (loadAllData sample_dashboard_private sample_browser_private).1 in
  let unticked := on_isPrivate_change false d1 sample_browser_private in
  apiCall_headers d1 !! "espnS2" = Some "AEB1"
  ∧ espnS2 (loadAllData unticked.1 unticked.2).1 = Some "AEB1"
  ∧ fetches (loadAllData unticked.1 unticked.2).2 =
      [("/api/league/100/info?seasonId=2024", plain_headers);
       ("/api/league/100/teams?seasonId=2024&scoringPeriodId=8",
        plain_headers);
       ("/api/league/100/boxscores?seasonId=2024&matchupPeriodId=8&scoringPeriodId=8",
        plain_headers)].
Proof.
  destruct (unticking_private_box_stops_credentials sample_dashboard_private
              sample_browser_private sample_browser_private)
    as (Hsent & Hheld & _ & Hfetches);
    try reflexivity; try discriminate.
  - repeat split; discriminate.
  - split; [exact Hsent | split; [exact Hheld | exact Hfetches]].
Defined.

Lemma displayFreeAgents_shows_first_fifty_matches_witness :
  displayFreeAgents (Some (JArray sample_players)) (Some "QB")
  = inr (Renders [sample_player "A" "QB"; sample_player "C" "QB"])
  ∧ [sample_player "A" "QB"; sample_player "C" "QB"]
    `sublist_of` sample_players
  ∧ (length [sample_player "A" "QB"; sample_player "C" "QB"] ≤ 50)%nat.
Proof.
  destruct (displayFreeAgents_shows_first_fifty_matches sample_players
              (Some "QB")
              [sample_player "A" "QB"; sample_player "C" "QB"])
    as (Hlength & Hsub & _).
  - reflexivity.
  - split; [reflexivity | split; [exact Hsub | exact Hlength]].
Defined.

Lemma displayFreeAgents_throws_on_null_player_witness :
  displayFreeAgents (Some (JArray (sample_players ++ [JNull])))
    (Some "QB") = inl TypeError.
Proof.
  apply (displayFreeAgents_throws_on_null_player
           (sample_players ++ [JNull]) (Some "QB")).
  left. split; [discriminate |].
  apply elem_of_app. right. constructor.
Defined.

Lemma getStreakDisplay_tells_streaks_apart_witness :
  getStreakDisplay (Some 3) = "W3"
  ∧ getStreakDisplay (Some (-3)) = "L3"
  ∧ getStreakDisplay (Some 3) ≠ "-".
Proof.
  destruct (getStreakDisplay_tells_streaks_apart 3 (-3))
    as (Hdash & HW & _); try (vm_compute; discriminate).
  destruct (getStreakDisplay_tells_streaks_apart (-3) 3)
    as (_ & HL & _); try (vm_compute; discriminate).
  split; [exact HW | split; [exact HL | exact Hdash]].
Defined.

End Dashboard.

(** * From the server to the dashboard

    What [apiCall] makes of the answers of the cached routes. *)

(** What [fetch] resolves to for the exchange that ended in [w]: the one
    response the server wrote, whose body [response.json()] reads back as
    the value [res.json] was given. *)
Definition delivered (w : World) : option Dashboard.HttpResponse :=
  match sent (res w) with
  | [(code, body)] =>
      Some {| Dashboard.status := code; Dashboard.json := inr body |}
  | _ => None
  end.

Section ServerToDashboard.

Variable parseInt : string -> option Z.

(** X20.  The message of a 400 response never reaches the user: its body
    has an [error] field and no [message], so [apiCall] throws an error
    whose message is the fixed text ["API request failed"], whichever
    parameter was missing on whichever route. *)
Theorem rejection_reaches_dashboard_without_its_message (r : Route)
    (up : Upstream) (req : Request) (t : Z) (w : World) :
  misses CACHE_DURATION t (cache w) (originalUrl req) ->
  missing_param r req = true ->
  let w1 := (cached_route parseInt r up req (start t w)).2 in
  ∃ response,
    delivered w1 = Some response
    ∧ Dashboard.ok response = false
    ∧ Dashboard.apiCall_receive (inr response) =
        inl (Dashboard.ErrorOf (JString "API request failed")).
Proof.
  intros Hmiss Hparam. cbn zeta. unfold cached_route.
  rewrite (middleware_miss _ _ _ _ _ Hmiss).
  rewrite (handler_bad_request _ _ _ _ _ _ Hparam). cbn.
  eexists. split; [reflexivity |]. split; reflexivity.
Qed.

(** X21.  When the upstream call fails, [apiCall] throws an error whose
    message is the message of the upstream error, or ["API request
    failed"] when that message is empty; the [error] text of the route is
    not used. *)
Theorem failure_reaches_dashboard_with_upstream_message (r : Route)
    (up : Upstream) (req : Request) (t : Z) (w : World) (message : string) :
  misses CACHE_DURATION t (cache w) (originalUrl req) ->
  missing_param r req = false ->
  reply up (upstream_call parseInt r req) = inl message ->
  let w1 := (cached_route parseInt r up req (start t w)).2 in
  ∃ response,
    delivered w1 = Some response
    ∧ Dashboard.ok response = false
    ∧ Dashboard.apiCall_receive (inr response) =
        inl (Dashboard.ErrorOf
               (JString (if String.eqb message "" then "API request failed"
                         else message))).
Proof.
  intros Hmiss Hparam Hreply. cbn zeta. unfold cached_route.
  rewrite (middleware_miss _ _ _ _ _ Hmiss).
  rewrite (handler_failure _ _ _ _ _ _ _ Hparam Hreply). cbn.
  eexists. split; [reflexivity |]. split; [reflexivity |].
  unfold Dashboard.apiCall_receive. cbn.
  destruct (String.eqb message ""); reflexivity.
Qed.

(** X22.  A stored failure is taken for data.  When the upstream call of
    a first request failed, the same address asked again while the entry
    is fresh is answered with status 200, so [apiCall] returns the failure
    body as the result of the call, and [displayFreeAgents], given that
    body, throws instead of rendering. *)
Theorem stored_failure_reaches_dashboard_as_data (r : Route)
    (up up' : Upstream) (req req' : Request) (t t' : Z) (w : World)
    (message : string) (positionFilter : option string) :
  misses CACHE_DURATION t (cache w) (originalUrl req) ->
  missing_param r req = false ->
  reply up (upstream_call parseInt r req) = inl message ->
  originalUrl req' = originalUrl req ->
  t' - (t + elapsed up) < CACHE_DURATION ->
  let w1 := (cached_route parseInt r up req (start t w)).2 in
  let w2 := (cached_route parseInt r up' req' (start t' w1)).2 in
  ∃ response,
    delivered w2 = Some response
    ∧ Dashboard.apiCall_receive (inr response) =
        inr (failure_body r message)
    ∧ Dashboard.displayFreeAgents (Some (failure_body r message))
        positionFilter = inl Dashboard.TypeError.
Proof.
  intros Hmiss Hparam Hreply Hurl Hfresh. cbn zeta.
  pose proof (handler_failure parseInt r up req t w message Hparam Hreply)
    as Hfirst.
  rewrite <- (middleware_miss CACHE_DURATION _ _ _ _ Hmiss) in Hfirst.
  change (cacheMiddleware CACHE_DURATION req (handler parseInt r up req))
    with (cached_route parseInt r up req) in Hfirst.
  rewrite Hfirst. cbn [snd].
  erewrite cached_route_hit;
    [| cbn; rewrite Hurl; apply lookup_insert_eq | cbn; exact Hfresh].
  cbn. eexists. split; [reflexivity |]. split; reflexivity.
Qed.

End ServerToDashboard.

Lemma rejection_reaches_dashboard_without_its_message_witness :
  ∃ response,
    delivered (cached_route sample_parseInt Info answering_upstream
                 info_request_no_season (start 0 idle)).2 = Some response
    ∧ Dashboard.ok response = false
    ∧ Dashboard.apiCall_receive (inr response) =
        inl (Dashboard.ErrorOf (JString "API request failed")).
Proof.
  apply (rejection_reaches_dashboard_without_its_message sample_parseInt
           Info answering_upstream info_request_no_season 0 idle).
  - left. reflexivity.
  - reflexivity.
Defined.

Lemma failure_reaches_dashboard_with_upstream_message_witness :
  ∃ response,
    delivered (cached_route sample_parseInt Info failing_upstream
                 info_request (start 0 idle)).2 = Some response
    ∧ Dashboard.ok response = false
    ∧ Dashboard.apiCall_receive (inr response) =
        inl (Dashboard.ErrorOf
               (JString "Request failed with status code 401")).
Proof.
  apply (failure_reaches_dashboard_with_upstream_message sample_parseInt
           Info failing_upstream info_request 0 idle
           "Request failed with status code 401").
  - left. reflexivity.
  - reflexivity.
  - reflexivity.
Defined.

Lemma stored_failure_reaches_dashboard_as_data_witness :
  let w1 := (cached_route sample_parseInt Info failing_upstream
               info_request (start 0 idle)).2 in
  let w2 := (cached_route sample_parseInt Info answering_upstream
               info_request (start 1000 w1)).2 in
  ∃ response,
    delivered w2 = Some response
    ∧ Dashboard.apiCall_receive (inr response) =
        inr (failure_body Info "Request failed with status code 401")
    ∧ Dashboard.displayFreeAgents
        (Some (failure_body Info
                 "Request failed with status code 401"))
        (Some "QB") = inl Dashboard.TypeError.
Proof.
  apply (stored_failure_reaches_dashboard_as_data sample_parseInt Info
           failing_upstream answering_upstream info_request info_request
           0 1000 idle
           "Request failed with status code 401" (Some "QB")).
  - left. reflexivity.
  - reflexivity.
  - reflexivity.
  - reflexivity.
  - vm_compute. reflexivity.
Defined.
